(** * SynchronizedWorkerThread: the state hand-off between controller and worker

    A shallow embedding of [src/SynchronizedWorkerThread.cpp].  Every member
    function of [SynchronizedWorker::Thread] is a computation in a small
    monad [M] over the state of the process.  A computation either returns,
    aborts the process ([LOG_ALWAYS_FATAL_IF]), or is still suspended when
    the schedule of the other threads has been used up.

    The mutex [mEventfdMutex] is modelled by atomicity: code that runs with
    the mutex held is one state transformer, and the other threads act only
    where the calling thread is suspended (a condition-variable wait, a
    [poll], a [join]).  What they do there is the [others] field of the
    next [Resume] of the schedule.  Lock, unlock, notification, stores to
    the state pair and the calls on the eventfd are recorded in a trace, so
    that their order can be stated. *)

From Stdlib Require Import ZArith List String Bool Lia.
Import ListNotations.
Open Scope string_scope.
Open Scope list_scope.
Open Scope Z_scope.

(** ** Data model *)

(** [enum class AsyncState] *)
Inductive AsyncState : Type :=
  | Invalid
  | Idle
  | Pause
  | Authenticate
  | Enroll
  | Stop.

Definition AsyncState_eqb (a b : AsyncState) : bool :=
  match a, b with
  | Invalid, Invalid | Idle, Idle | Pause, Pause
  | Authenticate, Authenticate | Enroll, Enroll | Stop, Stop => true
  | _, _ => false
  end.

(** [AsyncStateToChar]: the switch covers every enumerator; the statements
    after the switch are reached only by a value outside the enumeration,
    which the type [AsyncState] does not contain. *)
Definition AsyncStateToChar (state : AsyncState) : string :=
  match state with
  | Invalid => "Invalid"
  | Idle => "Idle"
  | Pause => "Pause"
  | Authenticate => "Authenticate"
  | Enroll => "Enroll"
  | Stop => "Stop"
  end.

(** The [std::thread thread] member: default constructed it is not a thread;
    after [Start] it is joinable, whether its function still runs or has
    returned. *)
Inductive std_thread : Type :=
  | NotAThread
  | Running
  | Finished.

Definition joinable (t : std_thread) : bool :=
  match t with
  | NotAThread => false
  | Running | Finished => true
  end.

(** [std::unique_lock<std::mutex>]: the mutex it refers to (by address,
    0 for none) and whether it owns it. *)
Record unique_lock : Type := mkLock {
  mutex : Z;
  owns_lock : bool
}.

(** [class Thread].  [mHandler] is the pointer (0 is [nullptr]),
    [mEventfdMutex] is the address of the member mutex. *)
Record Thread : Type := mkThread {
  mHandler : Z;
  event_fd : Z;
  thread : std_thread;
  mEventfdMutex : Z;
  currentState : AsyncState;
  desiredState : AsyncState
}.

(** android log priorities used by the file *)
Inductive Priority : Type := VERBOSE | DEBUG | INFO | WARN | ERROR.

(** Arguments of a log format string; [StrErrno] is [strerror(errno)]. *)
Inductive LogArg : Type :=
  | Str (s : string)
  | Int (n : Z)
  | StrErrno.

Inductive Field : Type := FCurrentState | FDesiredState.

(** What the process does that another thread, or the log, can observe. *)
Inductive Event : Type :=
  | Log (p : Priority) (fmt : string) (args : list LogArg)
  | Lock                                 (* mEventfdMutex acquired *)
  | Unlock                               (* mEventfdMutex released *)
  | NotifyAll                            (* mThreadStateChanged.notify_all() *)
  | Store (f : Field) (v : AsyncState)   (* assignment to the state pair *)
  | EventfdWrite (rc : Z)
  | EventfdRead (rc : Z)
  | Poll (cnt : Z)
  | Spawn
  | Join
  | Close.

(** The process: the [Thread] object, the kernel's eventfd object that
    [event_fd] names ([None] when the descriptor is not open, otherwise the
    64-bit counter), the steady clock in nanoseconds, and the trace. *)
Record World : Type := mkWorld {
  self : Thread;
  kernel_eventfd : option Z;
  clock : Z;
  trace : list Event
}.

(** One suspension of the calling thread: [others] is the net effect of
    the other threads (and of time passing) until it runs again; [wake] is
    the value a blocking [poll] reports when it returns. *)
Record Resume : Type := mkResume {
  others : World -> World;
  wake : Z
}.

Definition St : Type := (World * list Resume)%type.

(** ** The monad *)

Inductive Res (A : Type) : Type :=
  | Ret (a : A) (s : St)                                   (* returned *)
  | Fatal (fmt : string) (args : list LogArg) (s : St)     (* process aborted *)
  | Pending (s : St).                                      (* not returned yet *)

Arguments Ret {A} a s.
Arguments Fatal {A} fmt args s.
Arguments Pending {A} s.

Definition M (A : Type) : Type := St -> Res A.

Definition ret {A : Type} (a : A) : M A := fun s => Ret a s.

Definition bind {A B : Type} (m : M A) (f : A -> M B) : M B :=
  fun s =>
    match m s with
    | Ret a s' => f a s'
    | Fatal fmt args s' => Fatal fmt args s'
    | Pending s' => Pending s'
    end.

Declare Scope thread_scope.
Delimit Scope thread_scope with thread.
Notation "x <- m ;; k" := (bind m (fun x => k))
  (at level 100, m at next level, right associativity) : thread_scope.
Notation "m ;; k" := (bind m (fun _ => k))
  (at level 100, right associativity) : thread_scope.
Open Scope thread_scope.

Definition gets {A : Type} (f : World -> A) : M A :=
  fun s => Ret (f (fst s)) s.

Definition modify (f : World -> World) : M unit :=
  fun s => Ret tt (f (fst s), snd s).

(** ** Field updates *)

Definition set_self (t : Thread) (w : World) : World :=
  mkWorld t (kernel_eventfd w) (clock w) (trace w).

Definition set_kernel_eventfd (k : option Z) (w : World) : World :=
  mkWorld (self w) k (clock w) (trace w).

Definition add_event (e : Event) (w : World) : World :=
  mkWorld (self w) (kernel_eventfd w) (clock w) (trace w ++ [e]).

Definition with_thread (v : std_thread) (t : Thread) : Thread :=
  mkThread (mHandler t) (event_fd t) v (mEventfdMutex t)
           (currentState t) (desiredState t).

Definition with_currentState (v : AsyncState) (t : Thread) : Thread :=
  mkThread (mHandler t) (event_fd t) (thread t) (mEventfdMutex t)
           v (desiredState t).

Definition with_desiredState (v : AsyncState) (t : Thread) : Thread :=
  mkThread (mHandler t) (event_fd t) (thread t) (mEventfdMutex t)
           (currentState t) v.

Definition emit (e : Event) : M unit := modify (add_event e).

(** An assignment to [currentState] or [desiredState]. *)
Definition store_currentState (v : AsyncState) : M unit :=
  modify (fun w => add_event (Store FCurrentState v)
                     (set_self (with_currentState v (self w)) w)).

Definition store_desiredState (v : AsyncState) : M unit :=
  modify (fun w => add_event (Store FDesiredState v)
                     (set_self (with_desiredState v (self w)) w)).

(** ** Logging macros *)

Definition ALOGV (fmt : string) (args : list LogArg) : M unit :=
  emit (Log VERBOSE fmt args).
Definition ALOGD (fmt : string) (args : list LogArg) : M unit :=
  emit (Log DEBUG fmt args).
Definition ALOGI (fmt : string) (args : list LogArg) : M unit :=
  emit (Log INFO fmt args).
Definition ALOGW (fmt : string) (args : list LogArg) : M unit :=
  emit (Log WARN fmt args).
Definition ALOGE (fmt : string) (args : list LogArg) : M unit :=
  emit (Log ERROR fmt args).

(** [LOG_ALWAYS_FATAL_IF(cond, ...)]: aborts the process when [cond]. *)
Definition LOG_ALWAYS_FATAL_IF (cond : bool) (fmt : string)
    (args : list LogArg) : M unit :=
  fun s => if cond then Fatal fmt args s else Ret tt s.

(** ** The environment: eventfd, poll, mutex, condition variable, thread *)

(** Largest value an eventfd counter holds: 2^64 - 2. *)
Definition EVENTFD_MAX : Z := 18446744073709551614.

(** [eventfd_write(fd, value)] on a non-blocking eventfd: adds [value] to
    the counter; fails (-1) on a bad descriptor or when the sum would
    exceed the maximum. *)
Definition eventfd_write (fd value : Z) : M Z :=
  fun s =>
    let w := fst s in
    let rc :=
      if fd <? 0 then -1
      else match kernel_eventfd w with
           | None => -1
           | Some c => if c + value <=? EVENTFD_MAX then 0 else -1
           end in
    let k :=
      if rc =? 0
      then option_map (fun c => c + value) (kernel_eventfd w)
      else kernel_eventfd w in
    Ret rc (add_event (EventfdWrite rc) (set_kernel_eventfd k w), snd s).

(** [eventfd_read(fd, &value)] on a non-blocking eventfd without
    [EFD_SEMAPHORE]: fails (-1) on a bad descriptor or when the counter is
    zero; otherwise yields the counter and resets it to zero.  The value
    read is returned next to [rc] (0 when nothing was read). *)
Definition eventfd_read (fd : Z) : M (Z * Z) :=
  fun s =>
    let w := fst s in
    let r :=
      if fd <? 0 then (-1, 0)
      else match kernel_eventfd w with
           | None => (-1, 0)
           | Some c => if c =? 0 then (-1, 0) else (0, c)
           end in
    let k := if fst r =? 0 then Some 0 else kernel_eventfd w in
    Ret r (add_event (EventfdRead (fst r)) (set_kernel_eventfd k w), snd s).

(** Whether a wake signal is pending: the descriptor is readable. *)
Definition signal_pending (w : World) : bool :=
  if event_fd (self w) <? 0 then false
  else match kernel_eventfd w with
       | None => false
       | Some c => negb (c =? 0)
       end.

(** [poll] on the single eventfd for [POLLIN]: returns 1 at once when the
    counter is non-zero, 0 at once for a zero timeout; otherwise the thread
    is suspended and the call reports [wake] when it is resumed. *)
Definition poll (fd timeout : Z) : M Z :=
  fun s =>
    let w := fst s in
    let readable :=
      if fd <? 0 then false
      else match kernel_eventfd w with
           | None => false
           | Some c => negb (c =? 0)
           end in
    if readable then Ret 1 (add_event (Poll 1) w, snd s)
    else if timeout =? 0 then Ret 0 (add_event (Poll 0) w, snd s)
    else match snd s with
         | [] => Pending s
         | r :: sched =>
             Ret (wake r) (add_event (Poll (wake r)) (others r w), sched)
         end.

(** [close(fd)] *)
Definition close (fd : Z) : M unit :=
  modify (fun w => add_event Close
                     (if fd <? 0 then w else set_kernel_eventfd None w)).

(** [std::unique_lock<std::mutex> lock(mEventfdMutex)] and its destructor. *)
Definition unique_lock_ctor : M unique_lock :=
  emit Lock ;;
  m <- gets (fun w => mEventfdMutex (self w)) ;;
  ret (mkLock m true).

Definition unique_lock_dtor (lock : unique_lock) : M unit :=
  if owns_lock lock then emit Unlock else ret tt.

(** One [wait] on the condition variable: the mutex is released, the other
    threads run as suspension [r] says, and the mutex is taken again. *)
Definition resumed (r : Resume) (w : World) : World :=
  add_event Lock (others r (add_event Unlock w)).

(** [std::condition_variable::wait_for(lock, rel_time, pred)], that is
    [wait_until(lock, now + rel_time, pred)]:
      while (!pred()) if (wait_until(lock, t) == timeout) return pred();
      return true;
    One [wait_until(lock, t)] releases the mutex, suspends the thread,
    takes the mutex again when it is resumed (by a notification, by the
    timeout or spuriously), and reports a timeout when the clock has
    reached [t]. *)
Fixpoint wait_until (abs_time : Z) (pred : World -> bool)
    (w : World) (sched : list Resume) : Res bool :=
  if pred w then Ret true (w, sched)
  else
    match sched with
    | [] => Pending (add_event Unlock w, [])
    | r :: sched' =>
        let w' := resumed r w in
        if clock w' <? abs_time
        then wait_until abs_time pred w' sched'
        else Ret (pred w') (w', sched')
    end.

Definition wait_for (lock : unique_lock) (rel_time : Z)
    (pred : World -> bool) : M bool :=
  fun s => wait_until (clock (fst s) + rel_time) pred (fst s) (snd s).

(** [std::chrono::seconds(n)] on the nanosecond clock. *)
Definition seconds (n : Z) : Z := n * 1000000000.

(** [std::thread::join()]: returns once the thread's function has
    returned, and leaves the object not joinable.  On an object that is not
    joinable it throws, which nothing here catches. *)
Fixpoint thread_join (w : World) (sched : list Resume) : Res unit :=
  match thread (self w) with
  | NotAThread => Fatal "std::system_error" [] (w, sched)
  | Finished =>
      Ret tt (add_event Join (set_self (with_thread NotAThread (self w)) w),
              sched)
  | Running =>
      match sched with
      | [] => Pending (w, [])
      | r :: sched' => thread_join (others r w) sched'
      end
  end.

Definition join : M unit := fun s => thread_join (fst s) (snd s).

(** [eventfd(initval, flags)]: [result] is what the call returns, a new
    descriptor or -1; on success the kernel object exists with counter
    [initval]. *)
Definition eventfd (initval : Z) (result : Z) : M Z :=
  fun s =>
    Ret result
        (if result <? 0 then fst s
         else set_kernel_eventfd (Some initval) (fst s), snd s).

(** ** The program *)

(** [struct WorkHandler]: the virtual operations the worker invokes. *)
Record WorkHandler : Type := mkWorkHandler {
  IdleAsync : M unit;
  AuthenticateAsync : M unit;
  EnrollAsync : M unit
}.

(** [Thread::isEventAvailable] *)
Definition isEventAvailable (timeout : Z) : M bool :=
  fd <- gets (fun w => event_fd (self w)) ;;
  cnt <- poll fd timeout ;;
  if cnt <? 0 then
    ALOGE "%s: Failed polling eventfd: %d" [Str "isEventAvailable"; Int cnt] ;;
    ret false
  else
    let available := 0 <? cnt in
    ALOGV "%s: available=%d"
          [Str "isEventAvailable"; Int (if available then 1 else 0)] ;;
    ret available.

(** [WorkHandler::IdleAsync], the default implementation: blocks
    indefinitely. *)
Definition WorkHandler_IdleAsync : M unit :=
  isEventAvailable (-1) ;;
  ret tt.

(** Modelled from the spec: the default member initialisers of [class
    Thread] are in the header, which is not under src/; the spec gives
    [currentState] the initial value [Idle] and [desiredState] the value
    [Invalid] (no pending request).  A default constructed [std::thread] is
    not a thread. *)
Definition Thread_members (handler : Z) (t : Thread) : Thread :=
  mkThread handler (event_fd t) NotAThread (mEventfdMutex t) Idle Invalid.

Definition with_event_fd (v : Z) (t : Thread) : Thread :=
  mkThread (mHandler t) v (thread t) (mEventfdMutex t)
           (currentState t) (desiredState t).

(** [Thread::Thread(WorkHandler *handler)]; [new_fd] is what the kernel
    answers to [eventfd(0, EFD_NONBLOCK | EFD_CLOEXEC)]. *)
Definition Thread_ctor (handler : Z) (new_fd : Z) : M unit :=
  modify (fun w => set_self (Thread_members handler (self w)) w) ;;
  h <- gets (fun w => mHandler (self w)) ;;
  LOG_ALWAYS_FATAL_IF (h =? 0) "WorkHandler is null!" [] ;;
  fd <- eventfd 0 new_fd ;;
  modify (fun w => set_self (with_event_fd fd (self w)) w) ;;
  fd' <- gets (fun w => event_fd (self w)) ;;
  LOG_ALWAYS_FATAL_IF (fd' <? 0) "Failed to create eventfd: %s" [StrErrno].

(** [Thread::getEventFd] *)
Definition getEventFd : M Z := gets (fun w => event_fd (self w)).

(** [Thread::consumeState] *)
Definition consumeState : M AsyncState :=
  lock <- unique_lock_ctor ;;
  fd <- gets (fun w => event_fd (self w)) ;;
  r <- eventfd_read fd ;;
  let rc := fst r in
  state <-
    (if rc =? 0 then
       d <- gets (fun w => desiredState (self w)) ;;
       LOG_ALWAYS_FATAL_IF (AsyncState_eqb d Invalid)
                           "Requested state is invalid!" [] ;;
       ret d
     else ret Idle) ;;
  ALOGV "%s: Consumed state %s"
        [Str "consumeState"; Str (AsyncStateToChar state)] ;;
  store_currentState state ;;
  store_desiredState Invalid ;;
  emit NotifyAll ;;
  unique_lock_dtor lock ;;
  ret state.

(** [Thread::moveToState(AsyncState, std::unique_lock<std::mutex> &)] *)
Definition moveToState_locked (state : AsyncState) (lock : unique_lock)
    : M bool :=
  m <- gets (fun w => mEventfdMutex (self w)) ;;
  LOG_ALWAYS_FATAL_IF (negb (mutex lock =? m) || negb (owns_lock lock))
                      "Caller didn't lock mEventfdMutex!" [] ;;
  ALOGD "%s: Setting state to %s"
        [Str "moveToState"; Str (AsyncStateToChar state)] ;;
  d <- gets (fun w => desiredState (self w)) ;;
  (if negb (AsyncState_eqb d Invalid) then
     ALOGW "Previous state %s was not consumed. Overriding to %s!"
           [Str (AsyncStateToChar d); Str (AsyncStateToChar state)]
   else ret tt) ;;
  store_desiredState state ;;
  fd <- gets (fun w => event_fd (self w)) ;;
  rc <- eventfd_write fd 1 ;;
  (if negb (rc =? 0) then
     ALOGE "%s: Failed to write event-available to eventfd: %d"
           [Str "moveToState"; Int rc]
   else ret tt) ;;
  ret (rc =? 0).

(** [Thread::moveToState(AsyncState)] *)
Definition moveToState (state : AsyncState) : M bool :=
  lock <- unique_lock_ctor ;;
  r <- moveToState_locked state lock ;;
  unique_lock_dtor lock ;;
  ret r.

Definition wait_timeout : Z := 3.

(** [Thread::waitForState(AsyncState, std::unique_lock<std::mutex> &)] *)
Definition waitForState_locked (state : AsyncState) (lock : unique_lock)
    : M bool :=
  moved <- moveToState_locked state lock ;;
  if negb moved then
    c <- gets (fun w => currentState (self w)) ;;
    ALOGE "Failed to transition from %s to %s"
          [Str (AsyncStateToChar c); Str (AsyncStateToChar state)] ;;
    ret false
  else
    success <- wait_for lock (seconds wait_timeout)
                 (fun w => AsyncState_eqb (currentState (self w)) state) ;;
    LOG_ALWAYS_FATAL_IF (negb success)
      "Timed out waiting for %s for %llds. Are you writing race conditions??"
      [Str (AsyncStateToChar state); Int wait_timeout] ;;
    ALOGD "%s: Successfully switched to %s"
          [Str "waitForState"; Str (AsyncStateToChar state)] ;;
    ret true.

(** [Thread::waitForState(AsyncState)] *)
Definition waitForState (state : AsyncState) : M bool :=
  lock <- unique_lock_ctor ;;
  r <- waitForState_locked state lock ;;
  unique_lock_dtor lock ;;
  ret r.

(** [Thread::Start]: assigning to a [std::thread] that is joinable calls
    [std::terminate]. *)
Definition Thread_Start : M unit :=
  t <- gets (fun w => thread (self w)) ;;
  if joinable t then (fun s => Fatal "std::terminate" [] s)
  else
    modify (fun w => set_self (with_thread Running (self w)) w) ;;
    emit Spawn.

(** [Thread::Stop] *)
Definition Thread_Stop : M unit :=
  lock <- unique_lock_ctor ;;
  t <- gets (fun w => thread (self w)) ;;
  (if joinable t then
     ALOGW "Requesting thread to stop" [] ;;
     success <- waitForState_locked Stop lock ;;
     LOG_ALWAYS_FATAL_IF (negb success) "Failed to stop thread!" [] ;;
     join
   else ret tt) ;;
  unique_lock_dtor lock.

(** [Thread::~Thread] *)
Definition Thread_dtor : M unit :=
  Thread_Stop ;;
  fd <- gets (fun w => event_fd (self w)) ;;
  close fd.

(** [Thread::Pause] *)
Definition Thread_Pause : M bool :=
  ALOGV "Waiting for thread to pause" [] ;;
  waitForState Pause.


Section Worker.

(** The object [mHandler] points to. *)
Variable handler : WorkHandler.

(** The switch of [Thread::RunThread]; the result tells whether the arm
    returns from the function ([Stop]) or breaks out of the switch.  The
    [default] arm is the one an [Invalid] value takes. *)
Definition RunThread_switch (nextState : AsyncState) : M bool :=
  match nextState with
  | Idle => IdleAsync handler ;; ret false
  | Pause => isEventAvailable (-1) ;; ret false
  | Authenticate => AuthenticateAsync handler ;; ret false
  | Enroll => EnrollAsync handler ;; ret false
  | Stop => ALOGI "Stopping Thread" [] ;; ret true
  | Invalid =>
      ALOGW "Unexpected AsyncState %s" [Str (AsyncStateToChar nextState)] ;;
      ret false
  end.

(** The [for (;;)] loop of [Thread::RunThread], at most [fuel]
    iterations. *)
Fixpoint RunThread_loop (fuel : nat) : M unit :=
  match fuel with
  | O => fun s => Pending s
  | S fuel' =>
      nextState <- consumeState ;;
      ALOGD "%s: Switched to state %s"
            [Str "RunThread"; Str (AsyncStateToChar nextState)] ;;
      returned <- RunThread_switch nextState ;;
      if returned then ret tt
      else
        store_currentState Idle ;;
        RunThread_loop fuel'
  end.

(** [Thread::RunThread] *)
Definition RunThread (fuel : nat) : M unit :=
  ALOGD "Async thread up" [] ;;
  RunThread_loop fuel.

(** [Thread::ThreadStart]; when it returns the thread's function is
    complete, which is what [join] waits for. *)
Definition ThreadStart (fuel : nat) : M unit :=
  RunThread fuel ;;
  modify (fun w => set_self (with_thread Finished (self w)) w).

End Worker.

(** ** Descriptions used in the statements *)

(** The lock handle is the one the internal entry points accept. *)
Definition holds_mEventfdMutex (lock : unique_lock) (w : World) : bool :=
  (mutex lock =? mEventfdMutex (self w)) && owns_lock lock.

(** A signal write on [event_fd] would succeed. *)
Definition writable (w : World) : bool :=
  if event_fd (self w) <? 0 then false
  else match kernel_eventfd w with
       | None => false
       | Some c => c + 1 <=? EVENTFD_MAX
       end.

(** The eventfd object after [moveToState] has tried to signal it. *)
Definition signalled (w : World) : option Z :=
  if writable w then option_map (fun c => c + 1) (kernel_eventfd w)
  else kernel_eventfd w.

(** What [moveToState(S, lock)] adds to the trace. *)
Definition moveToState_events (S : AsyncState) (w : World) : list Event :=
  [Log DEBUG "%s: Setting state to %s"
       [Str "moveToState"; Str (AsyncStateToChar S)]]
  ++ (if AsyncState_eqb (desiredState (self w)) Invalid then []
      else [Log WARN "Previous state %s was not consumed. Overriding to %s!"
                [Str (AsyncStateToChar (desiredState (self w)));
                 Str (AsyncStateToChar S)]])
  ++ [Store FDesiredState S; EventfdWrite (if writable w then 0 else -1)]
  ++ (if writable w then []
      else [Log ERROR "%s: Failed to write event-available to eventfd: %d"
                [Str "moveToState"; Int (-1)]]).

(** The world once state [S] has been requested from world [w]. *)
Definition requested (S : AsyncState) (w : World) : World :=
  mkWorld (with_desiredState S (self w)) (signalled w) (clock w)
          (trace w ++ moveToState_events S w).

Definition after (pre : list Resume) (w : World) : World :=
  fold_left (fun w' r => resumed r w') pre w.

(** The predicate [waitForState(S, lock)] hands to [wait_for]: the lambda
    [currentState == state]. *)
Definition entered (S : AsyncState) (w : World) : bool :=
  AsyncState_eqb (currentState (self w)) S.

(** At every check along [pre], each made before the deadline [t], the
    worker is not in state [S]. *)
Fixpoint not_entered (S : AsyncState) (t : Z) (pre : list Resume)
    (w : World) : Prop :=
  currentState (self w) <> S /\
  match pre with
  | [] => True
  | r :: pre' => clock (resumed r w) < t /\ not_entered S t pre' (resumed r w)
  end.

(** The state [consumeState] hands to the loop. *)
Definition consumed (w : World) : AsyncState :=
  if signal_pending w then desiredState (self w) else Idle.

(** What a returning [consumeState] adds to the trace. *)
Definition consumeState_events (w : World) : list Event :=
  [Lock;
   EventfdRead (if signal_pending w then 0 else -1);
   Log VERBOSE "%s: Consumed state %s"
       [Str "consumeState"; Str (AsyncStateToChar (consumed w))];
   Store FCurrentState (consumed w);
   Store FDesiredState Invalid;
   NotifyAll;
   Unlock].

(** The eventfd object after the read in [consumeState]. *)
Definition drained (w : World) : option Z :=
  if signal_pending w then Some 0 else kernel_eventfd w.

(** The world at the end of a loop body that did not return: the store
    of line 105, made without the mutex and without a notification. *)
Definition back_to_idle (st : St) : St :=
  (add_event (Store FCurrentState Idle)
     (set_self (with_currentState Idle (self (fst st))) (fst st)), snd st).

(** The state after the "Switched to state" log line. *)
Definition switched (s : AsyncState) (st : St) : St :=
  (add_event (Log DEBUG "%s: Switched to state %s"
                  [Str "RunThread"; Str (AsyncStateToChar s)]) (fst st),
   snd st).

(** The handle [Stop] passes on, and the world in which it starts the
    handshake. *)
Definition Stop_lock (w : World) : unique_lock :=
  mkLock (mEventfdMutex (self w)) true.

Definition Stop_requesting (w : World) : World :=
  add_event (Log WARN "Requesting thread to stop" []) (add_event Lock w).

(** The result of a computation as another thread sees it. *)
Definition world_of {A : Type} (r : Res A) : World :=
  match r with
  | Ret _ s | Fatal _ _ s | Pending s => fst s
  end.

Definition tick (ns : Z) (w : World) : World :=
  mkWorld (self w) (kernel_eventfd w) (clock w + ns) (trace w).

(** ** Concrete worlds, handlers and schedules used as examples *)

(** Memory before the constructor has run. *)
Definition raw_world : World :=
  mkWorld (mkThread 0 0 NotAThread 4096 Invalid Invalid) None 0 [].

(** A coordinator as the constructor leaves it. *)
Definition constructed_world : World :=
  mkWorld (mkThread 1 5 NotAThread 4096 Idle Invalid) (Some 0) 0 [].

Definition idle_world : World :=
  mkWorld (mkThread 1 5 Running 4096 Idle Invalid) (Some 0) 0 [].

Definition saturated_world : World :=
  mkWorld (mkThread 1 5 Running 4096 Idle Invalid) (Some EVENTFD_MAX) 0 [].

(** A signal is pending and nothing was requested. *)
Definition stray_signal_world : World :=
  mkWorld (mkThread 1 5 Running 4096 Idle Invalid) (Some 1) 0 [].

(** A request for [s] has been made and signalled. *)
Definition request_world (s : AsyncState) : World :=
  mkWorld (mkThread 1 5 Running 4096 Idle s) (Some 1) 0 [].

(** A handler whose operations return at once, with the default idle
    operation. *)
Definition quick_handler : WorkHandler :=
  mkWorkHandler WorkHandler_IdleAsync (ret tt) (ret tt).

(** The worker thread consumes the pending request, one millisecond on. *)
Definition worker_consumes : Resume :=
  mkResume (fun w => tick 1000000 (world_of (consumeState (w, [])))) 1.

(** Three seconds pass and the worker does nothing. *)
Definition worker_stalls : Resume :=
  mkResume (tick 3000000000) 0.

(** The worker thread runs from its start until it returns or blocks, one
    millisecond passes. *)
Definition worker_runs : Resume :=
  mkResume (fun w => tick 1000000 (world_of (ThreadStart quick_handler 3 (w, []))))
           1.

(** The state in which [Stop] returns when the worker runs during the
    handshake. *)
Definition stopped_state : St :=
  Eval vm_compute in
    (world_of (Thread_Stop (idle_world, [worker_runs])), @nil Resume).

(** ** Descriptions used for the properties beyond the claims *)

(** The descriptor is valid and open, and its counter can take [n] more
    signals. *)
Definition channel_ok (n : Z) (w : World) : Prop :=
  0 <= event_fd (self w)
  /\ exists c, kernel_eventfd w = Some c /\ 0 <= c /\ c + n <= EVENTFD_MAX.

(** The worker thread, standing at the top of its loop, runs on its own
    until it returns or blocks, while [d] nanoseconds pass. *)
Definition worker_loop_runs (handler : WorkHandler) (fuel : nat) (d : Z)
    : Resume :=
  mkResume
    (fun w => tick d (world_of (RunThread_loop handler fuel (w, [])))) 1.

(** The freshly started worker thread runs on its own until its function
    returns or blocks, while [d] nanoseconds pass. *)
Definition worker_thread_runs (handler : WorkHandler) (fuel : nat) (d : Z)
    : Resume :=
  mkResume (fun w => tick d (world_of (ThreadStart handler fuel (w, [])))) 1.


(** ** Basic facts *)

Lemma AsyncState_eqb_eq (a b : AsyncState) :
  AsyncState_eqb a b = true <-> a = b.
Proof. destruct a, b; simpl; split; intro H; congruence. Qed.

Lemma AsyncState_eqb_refl (a : AsyncState) : AsyncState_eqb a a = true.
Proof. now apply AsyncState_eqb_eq. Qed.

Lemma AsyncState_eqb_neq (a b : AsyncState) :
  AsyncState_eqb a b = false <-> a <> b.
Proof. destruct a, b; simpl; split; intro H; congruence. Qed.

Ltac unfold_monad :=
  unfold ALOGV, ALOGD, ALOGI, ALOGW, ALOGE, LOG_ALWAYS_FATAL_IF,
    store_currentState, store_desiredState,
    unique_lock_ctor, unique_lock_dtor in *;
  unfold emit in *; unfold bind, ret, gets, modify in *.

Ltac unfold_world :=
  unfold add_event, set_kernel_eventfd, set_self, with_desiredState,
    with_currentState, with_thread in *; simpl in *.

Ltac red_world :=
  cbv [fst snd self event_fd kernel_eventfd clock trace desiredState
       currentState mHandler thread mEventfdMutex owns_lock mutex
       add_event set_kernel_eventfd set_self with_desiredState
       with_currentState with_thread option_map].

Ltac norm_trace := rewrite <- ?app_assoc; simpl.

(** With the right lock handle [moveToState(S, lock)] always returns: the
    request is recorded, and the result tells whether the signal was
    written. *)
Lemma moveToState_locked_run (S : AsyncState) (lock : unique_lock)
    (w : World) (sched : list Resume) :
  holds_mEventfdMutex lock w = true ->
  moveToState_locked S lock (w, sched) = Ret (writable w) (requested S w, sched).
Proof.
  intros Hl. unfold moveToState_locked, holds_mEventfdMutex in *.
  apply andb_true_iff in Hl. destruct Hl as [Hm Ho].
  unfold eventfd_write, requested, signalled, moveToState_events.
  unfold writable. unfold_monad.
  destruct w as [[h fd th m cur des] k c tr]. red_world.
  cbv [mutex owns_lock] in Hm, Ho. cbn [mEventfdMutex self] in Hm.
  rewrite Hm, Ho. cbn [negb orb].
  destruct (fd <? 0) eqn:Hfd;
    [|destruct k as [n|]; [destruct (n + 1 <=? EVENTFD_MAX) eqn:Hn|]];
    destruct des; cbn [AsyncState_eqb negb];
    repeat (progress (red_world; cbn [Z.eqb negb]; rewrite ?Hfd, ?Hn));
    cbn [app]; rewrite <- ?app_assoc; reflexivity.
Qed.

(** With any other lock handle it aborts before touching anything. *)
Lemma moveToState_locked_abort (S : AsyncState) (lock : unique_lock)
    (w : World) (sched : list Resume) :
  holds_mEventfdMutex lock w = false ->
  moveToState_locked S lock (w, sched)
  = Fatal "Caller didn't lock mEventfdMutex!" [] (w, sched).
Proof.
  intros Hl. unfold moveToState_locked, holds_mEventfdMutex in *.
  unfold_monad. simpl.
  rewrite <- negb_andb, Hl. reflexivity.
Qed.

Lemma holds_own_lock (w : World) (e : Event) :
  holds_mEventfdMutex (mkLock (mEventfdMutex (self (add_event e w))) true)
                      (add_event e w) = true.
Proof. unfold holds_mEventfdMutex. simpl. now rewrite Z.eqb_refl. Qed.

(** [Thread::moveToState(S)] in closed form. *)
Lemma moveToState_run (S : AsyncState) (w : World) (sched : list Resume) :
  moveToState S (w, sched)
  = Ret (writable w)
        (add_event Unlock (requested S (add_event Lock w)), sched).
Proof.
  unfold moveToState. unfold_monad. simpl.
  rewrite moveToState_locked_run by apply holds_own_lock.
  reflexivity.
Qed.

Lemma writable_add_event (e : Event) (w : World) :
  writable (add_event e w) = writable w.
Proof. reflexivity. Qed.

Lemma waitForState_locked_abort (S : AsyncState) (lock : unique_lock)
    (w : World) (sched : list Resume) :
  holds_mEventfdMutex lock w = false ->
  waitForState_locked S lock (w, sched)
  = Fatal "Caller didn't lock mEventfdMutex!" [] (w, sched).
Proof.
  intros Hl. unfold waitForState_locked, bind.
  now rewrite moveToState_locked_abort.
Qed.

(** ** moveToState *)

(** C4.  For every state [S], [moveToState(S)] returns (it neither aborts
    nor blocks) whatever was pending: [desiredState] becomes [S], a request
    that was still pending is overwritten with a warning in the log, the
    store precedes the signal write, and the result is [true] exactly when
    the eventfd could be written. *)
Theorem moveToState_last_write_wins (S : AsyncState) (w : World)
    (sched : list Resume) :
  exists w',
    moveToState S (w, sched) = Ret (writable w) (w', sched)
    /\ desiredState (self w') = S
    /\ currentState (self w') = currentState (self w)
    /\ kernel_eventfd w'
       = (if writable w then option_map (fun c => c + 1) (kernel_eventfd w)
          else kernel_eventfd w)
    /\ trace w'
       = trace w
         ++ [Lock;
             Log DEBUG "%s: Setting state to %s"
                 [Str "moveToState"; Str (AsyncStateToChar S)]]
         ++ (if AsyncState_eqb (desiredState (self w)) Invalid then []
             else [Log WARN
                       "Previous state %s was not consumed. Overriding to %s!"
                       [Str (AsyncStateToChar (desiredState (self w)));
                        Str (AsyncStateToChar S)]])
         ++ [Store FDesiredState S;
             EventfdWrite (if writable w then 0 else -1)]
         ++ (if writable w then []
             else [Log ERROR
                       "%s: Failed to write event-available to eventfd: %d"
                       [Str "moveToState"; Int (-1)]])
         ++ [Unlock].
Proof.
  eexists. split; [apply moveToState_run|].
  repeat split.
  unfold requested, moveToState_events. simpl.
  rewrite writable_add_event.
  destruct (AsyncState_eqb (desiredState (self w)) Invalid);
    destruct (writable w); simpl; norm_trace; reflexivity.
Qed.

(** C9.  When [moveToState(S)] reports failure, the request has been
    recorded all the same: [desiredState] is [S], stored before the failed
    write and not restored, and the eventfd is as it was, so the worker has
    not been signalled by this call. *)
Theorem moveToState_failure_keeps_request (S : AsyncState) (w : World)
    (sched : list Resume) (st' : St) :
  moveToState S (w, sched) = Ret false st' ->
  desiredState (self (fst st')) = S
  /\ kernel_eventfd (fst st') = kernel_eventfd w
  /\ (exists pre,
        trace (fst st')
        = pre ++ [Store FDesiredState S; EventfdWrite (-1);
                  Log ERROR
                      "%s: Failed to write event-available to eventfd: %d"
                      [Str "moveToState"; Int (-1)];
                  Unlock])
  /\ (desiredState (self w) <> S -> self (fst st') <> self w).
Proof.
  rewrite moveToState_run. intros H.
  assert (Hw : writable w = false) by congruence.
  assert (Hs : st' = (add_event Unlock (requested S (add_event Lock w)), sched))
    by congruence.
  subst st'. simpl. unfold signalled. rewrite writable_add_event, Hw. simpl.
  repeat split.
  - unfold moveToState_events. rewrite writable_add_event, Hw. simpl.
    destruct (AsyncState_eqb (desiredState (self w)) Invalid).
    + exists (trace w ++ [Lock;
                         Log DEBUG "%s: Setting state to %s"
                             [Str "moveToState"; Str (AsyncStateToChar S)]]).
      norm_trace. reflexivity.
    + eexists (trace w ++ [Lock; _; _]).
      norm_trace. reflexivity.
  - intros Hne Heq. apply Hne. rewrite <- Heq. reflexivity.
Qed.

Lemma moveToState_failure_keeps_request_witness :
  desiredState
    (self (add_event Unlock (requested Pause (add_event Lock saturated_world))))
  = Pause
  /\ kernel_eventfd
       (add_event Unlock (requested Pause (add_event Lock saturated_world)))
     = Some EVENTFD_MAX.
Proof.
  pose proof (moveToState_failure_keeps_request Pause saturated_world []
                (add_event Unlock
                   (requested Pause (add_event Lock saturated_world)), [])
                eq_refl) as H.
  split; [exact (proj1 H) | exact (proj1 (proj2 H))].
Defined.

(** C6.  Both entry points that take the lock handle abort the process,
    before anything else is done, when the handle refers to another mutex
    or does not own the mutex: [moveToState(S, lock)] by its own assertion,
    [waitForState(S, lock)] by calling it first. *)
Theorem lock_handle_asserted (S : AsyncState) (lock : unique_lock)
    (w : World) (sched : list Resume) :
  mutex lock <> mEventfdMutex (self w) \/ owns_lock lock = false ->
  moveToState_locked S lock (w, sched)
  = Fatal "Caller didn't lock mEventfdMutex!" [] (w, sched)
  /\ waitForState_locked S lock (w, sched)
     = Fatal "Caller didn't lock mEventfdMutex!" [] (w, sched).
Proof.
  intros H.
  assert (Hl : holds_mEventfdMutex lock w = false).
  { unfold holds_mEventfdMutex. apply andb_false_iff.
    destruct H as [H|H]; [left; now apply Z.eqb_neq | now right]. }
  split; [now apply moveToState_locked_abort
         | now apply waitForState_locked_abort].
Qed.

Lemma lock_handle_asserted_witness :
  moveToState_locked Stop (mkLock 4096 false) (idle_world, [])
  = Fatal "Caller didn't lock mEventfdMutex!" [] (idle_world, [])
  /\ waitForState_locked Stop (mkLock 8192 true) (idle_world, [])
     = Fatal "Caller didn't lock mEventfdMutex!" [] (idle_world, []).
Proof.
  split.
  - apply (lock_handle_asserted Stop (mkLock 4096 false) idle_world []).
    right. reflexivity.
  - apply (lock_handle_asserted Stop (mkLock 8192 true) idle_world []).
    left. simpl. lia.
Defined.

(** ** consumeState *)

(** [Thread::consumeState] in closed form. *)
Lemma consumeState_run (w : World) (sched : list Resume) :
  consumeState (w, sched)
  = if signal_pending w && AsyncState_eqb (desiredState (self w)) Invalid
    then Fatal "Requested state is invalid!" []
               (mkWorld (self w) (Some 0) (clock w)
                        (trace w ++ [Lock; EventfdRead 0]), sched)
    else Ret (consumed w)
             (mkWorld (with_desiredState Invalid
                         (with_currentState (consumed w) (self w)))
                      (drained w) (clock w)
                      (trace w ++ consumeState_events w), sched).
Proof.
  unfold consumeState, eventfd_read, consumeState_events, drained, consumed.
  unfold signal_pending. unfold_monad.
  destruct w as [[h fd th m cur des] k c tr]. red_world.
  destruct (fd <? 0) eqn:Hfd;
    [|destruct k as [n|]; [destruct (n =? 0) eqn:Hn|]];
    red_world; cbn [Z.eqb negb andb]; red_world;
    try (rewrite <- ?app_assoc; reflexivity).
  destruct des; cbn [AsyncState_eqb]; red_world; rewrite <- ?app_assoc;
    reflexivity.
Qed.

Lemma signal_pending_drained (w : World) (t : Thread) (c : Z)
    (tr : list Event) :
  event_fd t = event_fd (self w) ->
  signal_pending (mkWorld t (drained w) c tr) = false.
Proof.
  intros Hfd. unfold signal_pending, drained. simpl. rewrite Hfd.
  unfold signal_pending.
  destruct (event_fd (self w) <? 0); [reflexivity|].
  destruct (kernel_eventfd w) as [n|]; simpl; [|reflexivity].
  destruct (n =? 0) eqn:Hn; simpl; [now rewrite Hn | reflexivity].
Qed.

(** C2.  Whenever [consumeState] consumes a state it does so in one step
    under the mutex, with no suspension in between: [currentState] becomes
    the consumed state, [desiredState] becomes [Invalid], and the condition
    variable is notified, between taking the mutex and releasing it.
    Afterwards [desiredState] is [Invalid] and no wake signal is pending.
    The only invocation that consumes nothing is the one that aborts
    because a signalled request is [Invalid]. *)
Theorem consumeState_atomic (w : World) (sched : list Resume) :
  match consumeState (w, sched) with
  | Ret s (w', sched') =>
      sched' = sched
      /\ s = consumed w
      /\ currentState (self w') = s
      /\ desiredState (self w') = Invalid
      /\ signal_pending w' = false
      /\ trace w'
         = trace w
           ++ [Lock;
               EventfdRead (if signal_pending w then 0 else -1);
               Log VERBOSE "%s: Consumed state %s"
                   [Str "consumeState"; Str (AsyncStateToChar s)];
               Store FCurrentState s;
               Store FDesiredState Invalid;
               NotifyAll;
               Unlock]
  | Fatal _ _ _ =>
      signal_pending w = true /\ desiredState (self w) = Invalid
  | Pending _ => False
  end.
Proof.
  rewrite consumeState_run.
  destruct (signal_pending w) eqn:Hp; simpl.
  - destruct (AsyncState_eqb (desiredState (self w)) Invalid) eqn:Hd.
    + split; [reflexivity | now apply AsyncState_eqb_eq].
    + repeat split.
      * now apply signal_pending_drained.
      * unfold consumeState_events. now rewrite Hp.
  - repeat split.
    + now apply signal_pending_drained.
    + unfold consumeState_events. now rewrite Hp.
Qed.

(** C3.  With no wake signal pending [consumeState] returns [Idle] without
    suspending, whatever [desiredState] holds; with a signal pending and
    [desiredState] equal to [Invalid] it aborts the process; so the state
    it returns is never [Invalid]. *)
Theorem consumeState_default_and_invalid (w : World) (sched : list Resume) :
  (signal_pending w = false ->
   exists w', consumeState (w, sched) = Ret Idle (w', sched)
              /\ currentState (self w') = Idle)
  /\ (signal_pending w = true ->
      desiredState (self w) = Invalid ->
      exists w', consumeState (w, sched)
                 = Fatal "Requested state is invalid!" [] (w', sched)
                 /\ self w' = self w)
  /\ (forall s st', consumeState (w, sched) = Ret s st' -> s <> Invalid).
Proof.
  rewrite consumeState_run. unfold consumed.
  split; [|split].
  - intros Hp. rewrite Hp. simpl. eexists. split; reflexivity.
  - intros Hp Hd. rewrite Hp, Hd. simpl. eexists. split; reflexivity.
  - intros s st'. destruct (signal_pending w); simpl.
    + destruct (AsyncState_eqb (desiredState (self w)) Invalid) eqn:Hd;
        [discriminate|].
      intros H. apply AsyncState_eqb_neq in Hd. congruence.
    + intros H. assert (s = Idle) by congruence. subst. discriminate.
Qed.

Lemma consumeState_default_and_invalid_witness :
  (exists w', consumeState (idle_world, []) = Ret Idle (w', [])
              /\ currentState (self w') = Idle)
  /\ (exists w', consumeState (stray_signal_world, [])
                 = Fatal "Requested state is invalid!" [] (w', [])
                 /\ self w' = self stray_signal_world).
Proof.
  split.
  - apply (proj1 (consumeState_default_and_invalid idle_world [])).
    reflexivity.
  - apply (proj1 (proj2 (consumeState_default_and_invalid
                           stray_signal_world []))); reflexivity.
Defined.

(** ** Construction *)

(** C7.  Constructing the coordinator with a null handler aborts, before
    any eventfd is created; with a handler but no eventfd (the call returned
    a negative value) it aborts as well; and when the constructor returns,
    the handler pointer is not null, [event_fd] is a valid descriptor, its
    counter is zero, and the state pair is ([Idle], [Invalid]). *)
Theorem Thread_ctor_fatal_or_valid (handler new_fd : Z) (w : World)
    (sched : list Resume) :
  (handler = 0 ->
   exists w', Thread_ctor handler new_fd (w, sched)
              = Fatal "WorkHandler is null!" [] (w', sched)
              /\ kernel_eventfd w' = kernel_eventfd w)
  /\ (handler <> 0 -> new_fd < 0 ->
      exists w', Thread_ctor handler new_fd (w, sched)
                 = Fatal "Failed to create eventfd: %s" [StrErrno] (w', sched))
  /\ (handler <> 0 -> 0 <= new_fd ->
      exists w', Thread_ctor handler new_fd (w, sched) = Ret tt (w', sched))
  /\ (forall st', Thread_ctor handler new_fd (w, sched) = Ret tt st' ->
      mHandler (self (fst st')) = handler
      /\ mHandler (self (fst st')) <> 0
      /\ event_fd (self (fst st')) = new_fd
      /\ 0 <= event_fd (self (fst st'))
      /\ kernel_eventfd (fst st') = Some 0
      /\ currentState (self (fst st')) = Idle
      /\ desiredState (self (fst st')) = Invalid
      /\ thread (self (fst st')) = NotAThread).
Proof.
  unfold Thread_ctor, eventfd. unfold_monad. simpl.
  split; [|split; [|split]].
  - intros ->. simpl. eexists. split; reflexivity.
  - intros Hh Hfd. apply Z.eqb_neq in Hh. apply Z.ltb_lt in Hfd.
    rewrite Hh. simpl. rewrite ?Hfd. simpl. rewrite ?Hfd. eexists. reflexivity.
  - intros Hh Hfd. apply Z.eqb_neq in Hh. apply Z.ltb_ge in Hfd.
    rewrite Hh. simpl. rewrite ?Hfd. simpl. rewrite ?Hfd. eexists. reflexivity.
  - intros st'. destruct (handler =? 0) eqn:Hh; [discriminate|]. simpl.
    destruct (new_fd <? 0) eqn:Hfd; simpl; rewrite ?Hfd; [discriminate|].
    intros H. assert (Hs : st' = (mkWorld (mkThread handler new_fd NotAThread
                                   (mEventfdMutex (self w)) Idle Invalid)
                                   (Some 0) (clock w) (trace w), sched))
      by (injection H as <-; reflexivity).
    subst st'. simpl. apply Z.eqb_neq in Hh. apply Z.ltb_ge in Hfd.
    repeat split; assumption.
Qed.

Lemma Thread_ctor_fatal_or_valid_witness :
  (exists w', Thread_ctor 0 5 (raw_world, [])
              = Fatal "WorkHandler is null!" [] (w', [])
              /\ kernel_eventfd w' = None)
  /\ (exists w', Thread_ctor 77 (-1) (raw_world, [])
                 = Fatal "Failed to create eventfd: %s" [StrErrno] (w', []))
  /\ (exists w', Thread_ctor 77 5 (raw_world, []) = Ret tt (w', [])).
Proof.
  split; [|split].
  - apply (proj1 (Thread_ctor_fatal_or_valid 0 5 raw_world [])). reflexivity.
  - apply (proj1 (proj2 (Thread_ctor_fatal_or_valid 77 (-1) raw_world [])));
      lia.
  - apply (proj1 (proj2 (proj2 (Thread_ctor_fatal_or_valid 77 5 raw_world []))));
      lia.
Defined.

(** ** waitForState *)

Section Waiting.

Variable S : AsyncState.
Variable t : Z.

Lemma wait_until_at_once (w : World) (sched : list Resume) :
  currentState (self w) = S ->
  wait_until t (entered S) w sched = Ret true (w, sched).
Proof.
  intros H. destruct sched; cbn [wait_until]; unfold entered;
    now rewrite H, AsyncState_eqb_refl.
Qed.

Lemma wait_until_entered (pre : list Resume) :
  forall (w : World) (r : Resume) (post : list Resume),
    not_entered S t pre w ->
    currentState (self (resumed r (after pre w))) = S ->
    wait_until t (entered S) w (pre ++ r :: post)
    = Ret true (resumed r (after pre w), post).
Proof.
  induction pre as [|r0 pre IH]; intros w r post Hn He;
    cbn [wait_until app after fold_left not_entered] in *.
  - destruct Hn as [Hc _]. apply AsyncState_eqb_neq in Hc.
    unfold entered at 1. rewrite Hc.
    destruct (clock (resumed r w) <? t).
    + now apply wait_until_at_once.
    + unfold entered. now rewrite He, AsyncState_eqb_refl.
  - destruct Hn as [Hc [Ht Hn]]. apply AsyncState_eqb_neq in Hc.
    unfold entered at 1. rewrite Hc.
    apply Z.ltb_lt in Ht. rewrite Ht. now apply IH.
Qed.

Lemma wait_until_timed_out (pre : list Resume) :
  forall (w : World) (r : Resume) (post : list Resume),
    not_entered S t pre w ->
    currentState (self (resumed r (after pre w))) <> S ->
    t <= clock (resumed r (after pre w)) ->
    wait_until t (entered S) w (pre ++ r :: post)
    = Ret false (resumed r (after pre w), post).
Proof.
  induction pre as [|r0 pre IH]; intros w r post Hn He Hlate;
    cbn [wait_until app after fold_left not_entered] in *.
  - destruct Hn as [Hc _]. apply AsyncState_eqb_neq in Hc.
    unfold entered at 1. rewrite Hc.
    apply Z.ltb_ge in Hlate. rewrite Hlate.
    apply AsyncState_eqb_neq in He. unfold entered. now rewrite He.
  - destruct Hn as [Hc [Ht Hn]]. apply AsyncState_eqb_neq in Hc.
    unfold entered at 1. rewrite Hc.
    apply Z.ltb_lt in Ht. rewrite Ht. now apply IH.
Qed.

Lemma wait_until_still_waiting (pre : list Resume) :
  forall (w : World),
    not_entered S t pre w ->
    wait_until t (entered S) w pre = Pending (add_event Unlock (after pre w), []).
Proof.
  induction pre as [|r0 pre IH]; intros w Hn;
    cbn [wait_until app after fold_left not_entered] in *.
  - destruct Hn as [Hc _]. apply AsyncState_eqb_neq in Hc.
    unfold entered. now rewrite Hc.
  - destruct Hn as [Hc [Ht Hn]]. apply AsyncState_eqb_neq in Hc.
    unfold entered at 1. rewrite Hc.
    apply Z.ltb_lt in Ht. rewrite Ht. now apply IH.
Qed.

(** A wait whose schedule reaches the deadline does not stay suspended. *)
Lemma wait_until_returns (sched : list Resume) :
  forall (w : World),
    (exists pre r post,
        sched = pre ++ r :: post /\ t <= clock (resumed r (after pre w))) ->
    exists b st', wait_until t (entered S) w sched = Ret b st'.
Proof.
  induction sched as [|r0 sched IH]; intros w (pre & r & post & Hs & Hlate).
  - destruct pre; discriminate.
  - cbn [wait_until]. destruct (entered S w); [eauto|].
    destruct (clock (resumed r0 w) <? t) eqn:Ht; [|eauto].
    apply IH. destruct pre as [|p pre];
      cbn [app after fold_left] in *.
    + injection Hs as -> ->. apply Z.ltb_lt in Ht. lia.
    + injection Hs as -> ->. eauto.
Qed.

End Waiting.

(** [Thread::waitForState(S, lock)] with the right lock handle, up to the
    wait. *)
Lemma waitForState_locked_run (S : AsyncState) (lock : unique_lock)
    (w : World) (sched : list Resume) :
  holds_mEventfdMutex lock w = true ->
  waitForState_locked S lock (w, sched)
  = if writable w then
      match wait_until (clock w + seconds wait_timeout)
                       (entered S)
                       (requested S w) sched with
      | Ret true (w', sched') =>
          Ret true (add_event (Log DEBUG "%s: Successfully switched to %s"
                                   [Str "waitForState";
                                    Str (AsyncStateToChar S)]) w', sched')
      | Ret false s' =>
          Fatal "Timed out waiting for %s for %llds. Are you writing race conditions??"
                [Str (AsyncStateToChar S); Int wait_timeout] s'
      | Fatal fmt args s' => Fatal fmt args s'
      | Pending s' => Pending s'
      end
    else
      Ret false (add_event (Log ERROR "Failed to transition from %s to %s"
                                [Str (AsyncStateToChar (currentState (self w)));
                                 Str (AsyncStateToChar S)])
                           (requested S w), sched).
Proof.
  intros Hl. unfold waitForState_locked. unfold bind at 1.
  rewrite moveToState_locked_run by assumption.
  destruct (writable w); simpl.
  - unfold bind, wait_for. simpl.
    destruct (wait_until _ _ _ _) as [[|] [w' sched']| |]; reflexivity.
  - reflexivity.
Qed.

(** [Thread::waitForState(S)] in terms of the wait. *)
Lemma waitForState_run (S : AsyncState) (w : World) (sched : list Resume) :
  waitForState S (w, sched)
  = if writable w then
      match wait_until (clock w + seconds wait_timeout)
                       (entered S)
                       (requested S (add_event Lock w)) sched with
      | Ret true (w', sched') =>
          Ret true
              (add_event Unlock
                 (add_event (Log DEBUG "%s: Successfully switched to %s"
                                 [Str "waitForState";
                                  Str (AsyncStateToChar S)]) w'), sched')
      | Ret false s' =>
          Fatal "Timed out waiting for %s for %llds. Are you writing race conditions??"
                [Str (AsyncStateToChar S); Int wait_timeout] s'
      | Fatal fmt args s' => Fatal fmt args s'
      | Pending s' => Pending s'
      end
    else
      Ret false
          (add_event Unlock
             (add_event (Log ERROR "Failed to transition from %s to %s"
                             [Str (AsyncStateToChar (currentState (self w)));
                              Str (AsyncStateToChar S)])
                        (requested S (add_event Lock w))), sched).
Proof.
  unfold waitForState. unfold_monad. simpl.
  rewrite waitForState_locked_run by apply holds_own_lock.
  rewrite writable_add_event. simpl.
  destruct (writable w); [|reflexivity].
  destruct (wait_until _ _ _ _) as [[|] [w' sched']| |]; reflexivity.
Qed.

(** C1.  [waitForState(S)], called at clock [clock w]; the deadline is 3
    seconds later.
    - When the signal cannot be written it returns failure at once, without
      suspending.
    - Otherwise it checks [currentState == S] first and after every
      suspension.  It returns success at the first check that finds [S]:
      at once when the worker is already in [S], or after the suspension
      [r] when every earlier check failed before the deadline.
    - When the first suspension that ends at or after the deadline still
      does not find [S], the process aborts; later suspensions are not
      waited for.
    - While neither has happened it stays suspended, and a schedule that
      reaches the deadline always ends the call. *)
Theorem waitForState_handshake (S : AsyncState) (w : World)
    (sched : list Resume) :
  let w0 := requested S (add_event Lock w) in
  let t := clock w + seconds 3 in
  (writable w = false ->
   exists w', waitForState S (w, sched) = Ret false (w', sched)
              /\ desiredState (self w') = S)
  /\ (writable w = true -> currentState (self w) = S ->
      exists w', waitForState S (w, sched) = Ret true (w', sched)
                 /\ currentState (self w') = S)
  /\ (writable w = true ->
      forall pre r post,
        sched = pre ++ r :: post ->
        not_entered S t pre w0 ->
        currentState (self (resumed r (after pre w0))) = S ->
        exists w', waitForState S (w, sched) = Ret true (w', post)
                   /\ currentState (self w') = S)
  /\ (writable w = true ->
      forall pre r post,
        sched = pre ++ r :: post ->
        not_entered S t pre w0 ->
        currentState (self (resumed r (after pre w0))) <> S ->
        t <= clock (resumed r (after pre w0)) ->
        waitForState S (w, sched)
        = Fatal "Timed out waiting for %s for %llds. Are you writing race conditions??"
                [Str (AsyncStateToChar S); Int 3]
                (resumed r (after pre w0), post))
  /\ (writable w = true ->
      not_entered S t sched w0 ->
      exists w', waitForState S (w, sched) = Pending (w', []))
  /\ (writable w = true ->
      (exists pre r post,
          sched = pre ++ r :: post /\ t <= clock (resumed r (after pre w0))) ->
      forall s', waitForState S (w, sched) <> Pending s').
Proof.
  intros w0 t. rewrite waitForState_run. unfold wait_timeout.
  fold w0. fold t.
  split; [|split; [|split; [|split; [|split]]]]; intros Hw; rewrite Hw.
  - eexists. split; reflexivity.
  - intros Hc. rewrite wait_until_at_once by exact Hc.
    eexists. split; [reflexivity|exact Hc].
  - intros pre r post -> Hn He.
    rewrite (wait_until_entered S t pre w0 r post Hn He).
    eexists. split; [reflexivity|exact He].
  - intros pre r post -> Hn He Hlate.
    now rewrite (wait_until_timed_out S t pre w0 r post Hn He Hlate).
  - intros Hn. rewrite (wait_until_still_waiting S t sched w0 Hn).
    eexists. reflexivity.
  - intros Hex s'.
    destruct (wait_until_returns S t sched w0 Hex) as (b & st' & ->).
    destruct b, st'; discriminate.
Qed.

Lemma waitForState_handshake_witness :
  (exists w', waitForState Pause (saturated_world, [worker_consumes])
              = Ret false (w', [worker_consumes])
              /\ desiredState (self w') = Pause)
  /\ (exists w', waitForState Idle (idle_world, []) = Ret true (w', [])
                 /\ currentState (self w') = Idle)
  /\ (exists w', waitForState Pause (idle_world, [worker_consumes])
                 = Ret true (w', [])
                 /\ currentState (self w') = Pause)
  /\ waitForState Pause (idle_world, [worker_stalls; worker_consumes])
     = Fatal "Timed out waiting for %s for %llds. Are you writing race conditions??"
             [Str "Pause"; Int 3]
             (resumed worker_stalls
                (requested Pause (add_event Lock idle_world)),
              [worker_consumes])
  /\ (exists w', waitForState Pause (idle_world, []) = Pending (w', [])).
Proof.
  split; [|split; [|split; [|split]]].
  - apply (proj1 (waitForState_handshake Pause saturated_world
                    [worker_consumes])).
    reflexivity.
  - apply (proj1 (proj2 (waitForState_handshake Idle idle_world [])));
      reflexivity.
  - apply (proj1 (proj2 (proj2 (waitForState_handshake Pause idle_world
                                  [worker_consumes])))
             eq_refl [] worker_consumes []).
    + reflexivity.
    + split; [discriminate | exact I].
    + reflexivity.
  - apply (proj1 (proj2 (proj2 (proj2 (waitForState_handshake Pause idle_world
                                  [worker_stalls; worker_consumes]))))
             eq_refl [] worker_stalls [worker_consumes]).
    + reflexivity.
    + split; [discriminate | exact I].
    + discriminate.
    + vm_compute. discriminate.
  - apply (proj1 (proj2 (proj2 (proj2 (proj2
             (waitForState_handshake Pause idle_world [])))))).
    + reflexivity.
    + split; [discriminate | exact I].
Defined.

(** ** The worker loop *)

Section WorkerLoop.

Variable handler : WorkHandler.

Lemma RunThread_loop_step (fuel : nat) (st st1 : St) (s : AsyncState) :
  consumeState st = Ret s st1 ->
  RunThread_loop handler (S fuel) st
  = match RunThread_switch handler s (switched s st1) with
    | Ret true st2 => Ret tt st2
    | Ret false st2 => RunThread_loop handler fuel (back_to_idle st2)
    | Fatal fmt args st2 => Fatal fmt args st2
    | Pending st2 => Pending st2
    end.
Proof.
  intros Hc. cbn [RunThread_loop]. unfold bind at 1. rewrite Hc.
  unfold bind at 1. unfold ALOGD, emit, modify at 1.
  fold (switched s st1). unfold bind at 1.
  destruct (RunThread_switch handler s (switched s st1)) as [[|] st2| |];
    reflexivity.
Qed.

Lemma RunThread_switch_continues (s : AsyncState) (st st2 : St) (b : bool) :
  s <> Stop ->
  RunThread_switch handler s st = Ret b st2 ->
  b = false.
Proof.
  intros Hs. destruct s; try congruence; unfold RunThread_switch;
    unfold bind, ret;
    match goal with
    | |- context [match ?m st with _ => _ end] => destruct (m st)
    end; congruence.
Qed.

(** C5.  One iteration of the worker loop.  When [Stop] is consumed the
    function returns, whatever number of iterations was still allowed: no
    handler runs, nothing is consumed again, and [currentState] stays
    [Stop].  When any other state is consumed and its arm of the switch
    returns, the arm does not leave the loop, [currentState] is set to
    [Idle], and only then does the next iteration start.  The arms are
    the handler's idle operation for [Idle], a blocking poll for
    [Pause], the handler's operations for [Authenticate] and [Enroll],
    and a warning for [Invalid]. *)
Theorem RunThread_stop_or_idle (fuel : nat) (st : St) :
  (forall st1,
      consumeState st = Ret Stop st1 ->
      RunThread_loop handler (S fuel) st
      = Ret tt (add_event (Log INFO "Stopping Thread" [])
                  (fst (switched Stop st1)), snd st1))
  /\ (forall s st1 b st2,
         s <> Stop ->
         consumeState st = Ret s st1 ->
         RunThread_switch handler s (switched s st1) = Ret b st2 ->
         b = false
         /\ RunThread_loop handler (S fuel) st
            = RunThread_loop handler fuel (back_to_idle st2)
         /\ currentState (self (fst (back_to_idle st2))) = Idle
         /\ desiredState (self (fst (back_to_idle st2)))
            = desiredState (self (fst st2)))
  /\ RunThread_switch handler Idle = (IdleAsync handler ;; ret false)
  /\ RunThread_switch handler Pause = (isEventAvailable (-1) ;; ret false)
  /\ RunThread_switch handler Authenticate
     = (AuthenticateAsync handler ;; ret false)
  /\ RunThread_switch handler Enroll = (EnrollAsync handler ;; ret false)
  /\ RunThread_switch handler Invalid
     = (ALOGW "Unexpected AsyncState %s" [Str "Invalid"] ;; ret false).
Proof.
  split; [|split; [|repeat split]].
  - intros st1 Hc. rewrite (RunThread_loop_step fuel st st1 Stop Hc).
    reflexivity.
  - intros s st1 b st2 Hs Hc Hsw.
    rewrite (RunThread_loop_step fuel st st1 s Hc), Hsw.
    pose proof (RunThread_switch_continues s _ _ _ Hs Hsw) as ->.
    repeat split.
Qed.

End WorkerLoop.

Lemma RunThread_stop_or_idle_witness :
  RunThread_loop quick_handler 5 (request_world Stop, [])
  = Ret tt (add_event (Log INFO "Stopping Thread" [])
              (fst (switched Stop
                      (world_of (consumeState (request_world Stop, [])), []))),
            [])
  /\ RunThread_loop quick_handler 5 (request_world Authenticate, [])
     = RunThread_loop quick_handler 4
         (back_to_idle
            (switched Authenticate
               (world_of (consumeState (request_world Authenticate, [])), []))).
Proof.
  split.
  - apply (proj1 (RunThread_stop_or_idle quick_handler 4
                    (request_world Stop, []))
             (world_of (consumeState (request_world Stop, [])), [])).
    reflexivity.
  - apply (proj1 (proj2 (RunThread_stop_or_idle quick_handler 4
                           (request_world Authenticate, [])))
             Authenticate
             (world_of (consumeState (request_world Authenticate, [])), [])
             false).
    + discriminate.
    + reflexivity.
    + reflexivity.
Defined.

(** ** Stop and destruction *)

(** A [join] that returns has joined: the thread object is left not
    joinable, and the join is the last thing that happened. *)
Lemma thread_join_ret (sched : list Resume) :
  forall (w : World) (st' : St),
    thread_join w sched = Ret tt st' ->
    exists wj,
      fst st' = add_event Join (set_self (with_thread NotAThread (self wj)) wj).
Proof.
  induction sched as [|r sched IH]; intros w st'; cbn [thread_join];
    destruct (thread (self w)); intros H; try discriminate H.
  - injection H as <-. now exists w.
  - now apply IH in H.
  - injection H as <-. now exists w.
Qed.

Lemma holds_Stop_lock (w : World) :
  holds_mEventfdMutex (Stop_lock w) (Stop_requesting w) = true.
Proof. unfold holds_mEventfdMutex. simpl. now rewrite Z.eqb_refl. Qed.

(** [Thread::Stop] in terms of the handshake. *)
Lemma Thread_Stop_run (w : World) (sched : list Resume) :
  Thread_Stop (w, sched)
  = if joinable (thread (self w)) then
      match waitForState_locked Stop (Stop_lock w)
                                (Stop_requesting w, sched) with
      | Ret true s1 => (join ;; emit Unlock) s1
      | Ret false s1 => Fatal "Failed to stop thread!" [] s1
      | Fatal fmt args s1 => Fatal fmt args s1
      | Pending s1 => Pending s1
      end
    else Ret tt (add_event Unlock (add_event Lock w), sched).
Proof.
  unfold Thread_Stop, Stop_lock, Stop_requesting.
  unfold unique_lock_ctor, unique_lock_dtor, ALOGW, LOG_ALWAYS_FATAL_IF.
  unfold emit. unfold bind, ret, gets, modify. simpl.
  destruct (joinable (thread (self w))); [|reflexivity].
  destruct (waitForState_locked _ _ _) as [[|] s1| |]; simpl; reflexivity.
Qed.

(** A [Stop] of a joinable thread that returns has had a successful
    handshake and has joined the thread last. *)
Lemma Thread_Stop_ret_joined (w : World) (sched : list Resume) (st' : St) :
  joinable (thread (self w)) = true ->
  Thread_Stop (w, sched) = Ret tt st' ->
  exists s1 wj,
    waitForState_locked Stop (Stop_lock w) (Stop_requesting w, sched)
    = Ret true s1
    /\ fst st'
       = add_event Unlock
           (add_event Join (set_self (with_thread NotAThread (self wj)) wj)).
Proof.
  intros Hj. rewrite Thread_Stop_run, Hj.
  destruct (waitForState_locked _ _ _) as [[|] s1| |]; try discriminate.
  unfold bind, join, emit, modify.
  destruct (thread_join (fst s1) (snd s1)) as [[] sj| |] eqn:Hjoin;
    try discriminate.
  intros H. injection H as <-.
  destruct (thread_join_ret _ _ _ Hjoin) as [wj Hwj].
  exists s1, wj. split; [reflexivity|]. simpl. now rewrite Hwj.
Qed.

(** C8.  [Stop()].
    - When the thread is not joinable there is no handshake: the mutex is
      taken and released, nothing else.
    - When it is joinable, [waitForState(Stop, lock)] is called; if that
      reports failure, which it does when the signal cannot be written, the
      process aborts with the request recorded and the thread not joined;
      if it reports success the thread is joined and then the mutex is
      released, so a [Stop] that returns has joined the thread last.
    - The destructor runs [Stop] first and closes the descriptor only when
      [Stop] has returned. *)
Theorem Stop_handshake_then_join (w : World) (sched : list Resume) :
  (joinable (thread (self w)) = false ->
   Thread_Stop (w, sched) = Ret tt (add_event Unlock (add_event Lock w), sched))
  /\ (joinable (thread (self w)) = true ->
      Thread_Stop (w, sched)
      = match waitForState_locked Stop (Stop_lock w)
                                  (Stop_requesting w, sched) with
        | Ret true s1 => (join ;; emit Unlock) s1
        | Ret false s1 => Fatal "Failed to stop thread!" [] s1
        | Fatal fmt args s1 => Fatal fmt args s1
        | Pending s1 => Pending s1
        end)
  /\ (joinable (thread (self w)) = true ->
      writable w = false ->
      exists w', Thread_Stop (w, sched)
                 = Fatal "Failed to stop thread!" [] (w', sched)
                 /\ desiredState (self w') = Stop
                 /\ thread (self w') = thread (self w))
  /\ (joinable (thread (self w)) = true ->
      forall st',
        Thread_Stop (w, sched) = Ret tt st' ->
        exists s1 wj,
          waitForState_locked Stop (Stop_lock w) (Stop_requesting w, sched)
          = Ret true s1
          /\ fst st'
             = add_event Unlock
                 (add_event Join
                    (set_self (with_thread NotAThread (self wj)) wj)))
  /\ Thread_dtor (w, sched)
     = match Thread_Stop (w, sched) with
       | Ret _ (w', sched') =>
           Ret tt (add_event Close
                     (if event_fd (self w') <? 0 then w'
                      else set_kernel_eventfd None w'), sched')
       | Fatal fmt args s1 => Fatal fmt args s1
       | Pending s1 => Pending s1
       end.
Proof.
  split; [|split; [|split; [|split]]].
  - intros Hj. now rewrite Thread_Stop_run, Hj.
  - intros Hj. now rewrite Thread_Stop_run, Hj.
  - intros Hj Hw. rewrite Thread_Stop_run, Hj.
    rewrite waitForState_locked_run by (apply holds_Stop_lock).
    unfold Stop_requesting. rewrite !writable_add_event, Hw.
    eexists. split; [reflexivity|]. split; reflexivity.
  - intros Hj st' H. now apply Thread_Stop_ret_joined.
  - unfold Thread_dtor, close. unfold bind at 1.
    destruct (Thread_Stop (w, sched)) as [[] [w' sched']| |]; reflexivity.
Qed.

Lemma Thread_Stop_with_worker :
  Thread_Stop (idle_world, [worker_runs]) = Ret tt stopped_state.
Proof. vm_compute. reflexivity. Qed.

Lemma Stop_handshake_then_join_witness :
  Thread_Stop (constructed_world, [])
  = Ret tt (add_event Unlock (add_event Lock constructed_world), [])
  /\ (exists w', Thread_Stop (saturated_world, [])
                 = Fatal "Failed to stop thread!" [] (w', [])
                 /\ desiredState (self w') = Stop
                 /\ thread (self w') = thread (self saturated_world))
  /\ (exists s1 wj,
         waitForState_locked Stop (Stop_lock idle_world)
                             (Stop_requesting idle_world, [worker_runs])
         = Ret true s1
         /\ fst stopped_state
            = add_event Unlock
                (add_event Join
                   (set_self (with_thread NotAThread (self wj)) wj))).
Proof.
  split; [|split].
  - exact (proj1 (Stop_handshake_then_join constructed_world []) eq_refl).
  - exact (proj1 (proj2 (proj2 (Stop_handshake_then_join saturated_world [])))
             eq_refl eq_refl).
  - exact (proj1 (proj2 (proj2 (proj2
             (Stop_handshake_then_join idle_world [worker_runs]))))
             eq_refl stopped_state Thread_Stop_with_worker).
Defined.

(** C10.  [Stop()] on a coordinator whose thread is not running (never
    started, or joined by an earlier [Stop]) returns without a handshake:
    the object, the eventfd and the clock are as before, and only the
    taking and releasing of the mutex is added to the trace.  A [Stop] that
    has returned leaves the thread not joinable, so a second [Stop] is of
    that kind. *)
Theorem Stop_idempotent (w : World) (sched : list Resume) :
  (thread (self w) = NotAThread ->
   exists w',
     Thread_Stop (w, sched) = Ret tt (w', sched)
     /\ self w' = self w
     /\ kernel_eventfd w' = kernel_eventfd w
     /\ clock w' = clock w
     /\ trace w' = trace w ++ [Lock; Unlock])
  /\ (forall st1,
         Thread_Stop (w, sched) = Ret tt st1 ->
         thread (self (fst st1)) = NotAThread
         /\ exists w2,
             Thread_Stop st1 = Ret tt (w2, snd st1)
             /\ self w2 = self (fst st1)
             /\ kernel_eventfd w2 = kernel_eventfd (fst st1)
             /\ clock w2 = clock (fst st1)
             /\ trace w2 = trace (fst st1) ++ [Lock; Unlock]).
Proof.
  assert (Hnot : forall w0 sched0,
             thread (self w0) = NotAThread ->
             exists w',
               Thread_Stop (w0, sched0) = Ret tt (w', sched0)
               /\ self w' = self w0
               /\ kernel_eventfd w' = kernel_eventfd w0
               /\ clock w' = clock w0
               /\ trace w' = trace w0 ++ [Lock; Unlock]).
  { intros w0 sched0 Ht. rewrite Thread_Stop_run, Ht. simpl.
    eexists. split; [reflexivity|]. simpl. norm_trace. repeat split. }
  split; [apply Hnot|].
  intros st1 H.
  assert (Ht : thread (self (fst st1)) = NotAThread).
  { destruct (joinable (thread (self w))) eqn:Hj.
    - destruct (Thread_Stop_ret_joined w sched st1 Hj H)
        as (s1 & wj & _ & ->).
      reflexivity.
    - rewrite Thread_Stop_run, Hj in H. injection H as <-. simpl.
      destruct (thread (self w)); [reflexivity|discriminate..]. }
  split; [exact Ht|].
  destruct st1 as [w1 sched1]. simpl in *. now apply Hnot.
Qed.

Lemma Stop_idempotent_witness :
  (exists w',
      Thread_Stop (constructed_world, []) = Ret tt (w', [])
      /\ self w' = self constructed_world
      /\ kernel_eventfd w' = kernel_eventfd constructed_world
      /\ clock w' = clock constructed_world
      /\ trace w' = trace constructed_world ++ [Lock; Unlock])
  /\ thread (self (fst stopped_state)) = NotAThread
  /\ (exists w2,
         Thread_Stop stopped_state = Ret tt (w2, snd stopped_state)
         /\ self w2 = self (fst stopped_state)
         /\ kernel_eventfd w2 = kernel_eventfd (fst stopped_state)
         /\ clock w2 = clock (fst stopped_state)
         /\ trace w2 = trace (fst stopped_state) ++ [Lock; Unlock]).
Proof.
  split.
  - exact (proj1 (Stop_idempotent constructed_world []) eq_refl).
  - exact (proj2 (Stop_idempotent idle_world [worker_runs])
             stopped_state Thread_Stop_with_worker).
Defined.

(** * Further properties of the code *)

(** ** AsyncStateToChar *)

(** X1.  The names [AsyncStateToChar] gives are pairwise different: a log
    line identifies the state it mentions. *)
Theorem AsyncStateToChar_injective (a b : AsyncState) :
  AsyncStateToChar a = AsyncStateToChar b -> a = b.
Proof.
  destruct a, b; simpl; intros H; try reflexivity; discriminate H.
Qed.

Lemma AsyncStateToChar_injective_witness :
  Pause = Pause.
Proof.
  exact (AsyncStateToChar_injective Pause Pause eq_refl).
Defined.

(** ** Request and consumption *)

Lemma channel_ok_writable (n : Z) (w : World) :
  0 < n -> channel_ok n w -> writable w = true.
Proof.
  intros Hn (Hfd & c & Hk & Hc & Hmax). unfold writable.
  apply Z.ltb_ge in Hfd. rewrite Hfd, Hk. apply Z.leb_le. lia.
Qed.

(** Once a signal has been written on a channel that was in order, a
    signal is pending, whatever else is added to the trace. *)
Lemma signal_pending_signalled (n : Z) (w : World) (t : Thread) (c : Z)
    (tr : list Event) :
  0 < n -> channel_ok n w ->
  event_fd t = event_fd (self w) ->
  signal_pending (mkWorld t (signalled w) c tr) = true.
Proof.
  intros Hn Hok Hfd. unfold signalled.
  rewrite (channel_ok_writable n w Hn Hok).
  destruct Hok as (Hfd0 & c0 & Hk & Hc & Hmax).
  unfold signal_pending. simpl. rewrite Hfd, Hk. simpl.
  apply Z.ltb_ge in Hfd0. rewrite Hfd0.
  apply negb_true_iff. apply Z.eqb_neq. lia.
Qed.

(** [moveToState(S)] followed by [consumeState], in closed form. *)
Lemma request_consume_run (S : AsyncState) (w : World)
    (sched : list Resume) :
  channel_ok 1 w ->
  exists w1,
    moveToState S (w, sched) = Ret true (w1, sched)
    /\ self w1 = with_desiredState S (self w)
    /\ signal_pending w1 = true
    /\ consumeState (w1, sched)
       = if AsyncState_eqb S Invalid
         then Fatal "Requested state is invalid!" []
                    (mkWorld (self w1) (Some 0) (clock w1)
                             (trace w1 ++ [Lock; EventfdRead 0]), sched)
         else Ret S
                  (mkWorld (with_desiredState Invalid
                              (with_currentState S (self w1)))
                           (Some 0) (clock w1)
                           (trace w1 ++ consumeState_events w1), sched).
Proof.
  intros Hok.
  assert (Hok' : channel_ok 1 (add_event Lock w)) by exact Hok.
  exists (add_event Unlock (requested S (add_event Lock w))).
  assert (Hp : signal_pending
                 (add_event Unlock (requested S (add_event Lock w))) = true).
  { unfold add_event at 1, requested.
    cbn [self kernel_eventfd clock trace].
    apply (signal_pending_signalled 1 (add_event Lock w)); [lia|exact Hok'|].
    reflexivity. }
  split; [|split; [reflexivity|split; [exact Hp|]]].
  - rewrite moveToState_run.
    now rewrite (channel_ok_writable 1 w) by (lia || exact Hok).
  - rewrite consumeState_run. unfold consumed, drained. rewrite Hp.
    cbn [andb]. reflexivity.
Qed.

(** X2.  Round trip of a request: on a channel in order, a state [S] other
    than [Invalid] requested with [moveToState(S)] is the state the next
    [consumeState] returns; [currentState] is then [S], nothing is left
    requested and no signal is left pending. *)
Theorem request_then_consume (S : AsyncState) (w : World)
    (sched : list Resume) :
  channel_ok 1 w ->
  S <> Invalid ->
  exists w2,
    (moveToState S ;; consumeState) (w, sched) = Ret S (w2, sched)
    /\ currentState (self w2) = S
    /\ desiredState (self w2) = Invalid
    /\ signal_pending w2 = false.
Proof.
  intros Hok HS.
  destruct (request_consume_run S w sched Hok) as (w1 & Hm & Hs & Hp & Hc).
  apply AsyncState_eqb_neq in HS. rewrite HS in Hc.
  eexists. unfold bind. rewrite Hm, Hc.
  split; [reflexivity|]. repeat split.
  unfold signal_pending. cbn [self kernel_eventfd event_fd].
  destruct (_ <? 0); reflexivity.
Qed.

Lemma request_then_consume_witness :
  exists w2,
    (moveToState Enroll ;; consumeState) (idle_world, []) = Ret Enroll (w2, [])
    /\ currentState (self w2) = Enroll
    /\ desiredState (self w2) = Invalid
    /\ signal_pending w2 = false.
Proof.
  apply (request_then_consume Enroll idle_world []).
  - split; [simpl; lia|]. exists 0. split; [reflexivity|].
    unfold EVENTFD_MAX. lia.
  - discriminate.
Defined.

(** X3.  Requesting [Invalid] is what makes the worker abort: on a channel
    in order, [moveToState(Invalid)] itself succeeds, and the next
    [consumeState] aborts the process, with the state pair as the request
    left it. *)
Theorem request_Invalid_aborts_worker (w : World) (sched : list Resume) :
  channel_ok 1 w ->
  exists w2,
    (moveToState Invalid ;; consumeState) (w, sched)
    = Fatal "Requested state is invalid!" [] (w2, sched)
    /\ currentState (self w2) = currentState (self w)
    /\ desiredState (self w2) = Invalid.
Proof.
  intros Hok.
  destruct (request_consume_run Invalid w sched Hok)
    as (w1 & Hm & Hs & Hp & Hc).
  cbn [AsyncState_eqb] in Hc.
  eexists. unfold bind. rewrite Hm, Hc.
  split; [reflexivity|]. cbn [self]. rewrite Hs. split; reflexivity.
Qed.

Lemma request_Invalid_aborts_worker_witness :
  exists w2,
    (moveToState Invalid ;; consumeState) (idle_world, [])
    = Fatal "Requested state is invalid!" [] (w2, [])
    /\ currentState (self w2) = currentState (self idle_world)
    /\ desiredState (self w2) = Invalid.
Proof.
  apply (request_Invalid_aborts_worker idle_world []).
  split; [simpl; lia|]. exists 0. split; [reflexivity|].
  unfold EVENTFD_MAX. lia.
Defined.

(** A [consumeState] that returns leaves no signal pending. *)
Lemma consumeState_ret_drained (w : World) (sched : list Resume)
    (s : AsyncState) (st1 : St) :
  consumeState (w, sched) = Ret s st1 ->
  signal_pending (fst st1) = false /\ snd st1 = sched.
Proof.
  rewrite consumeState_run.
  destruct (signal_pending w && AsyncState_eqb (desiredState (self w)) Invalid);
    [discriminate|].
  intros H. injection H as _ <-. cbn [fst snd].
  split; [now apply signal_pending_drained | reflexivity].
Qed.

(** With no signal pending [consumeState] returns [Idle]. *)
Lemma consumeState_not_pending (w : World) (sched : list Resume) :
  signal_pending w = false ->
  consumeState (w, sched)
  = Ret Idle (mkWorld (with_desiredState Invalid
                         (with_currentState Idle (self w)))
                      (kernel_eventfd w) (clock w)
                      (trace w ++ consumeState_events w), sched).
Proof.
  intros Hp. rewrite consumeState_run. unfold consumed, drained.
  now rewrite Hp.
Qed.

(** X4.  A request is consumed once: directly after a [consumeState] that
    returned, a second [consumeState] finds nothing and returns [Idle],
    leaving [currentState] at [Idle] and [desiredState] at [Invalid]. *)
Theorem consumeState_once (st st1 : St) (s : AsyncState) :
  consumeState st = Ret s st1 ->
  exists w2,
    consumeState st1 = Ret Idle (w2, snd st)
    /\ currentState (self w2) = Idle
    /\ desiredState (self w2) = Invalid
    /\ kernel_eventfd w2 = kernel_eventfd (fst st1).
Proof.
  destruct st as [w sched]. intros H.
  destruct (consumeState_ret_drained w sched s st1 H) as [Hp Hs].
  destruct st1 as [w1 sched1]. cbn [fst snd] in *. subst sched1.
  rewrite (consumeState_not_pending w1 sched Hp).
  eexists. split; [reflexivity|]. repeat split.
Qed.

Lemma consumeState_once_witness :
  exists w2,
    consumeState (world_of (consumeState (request_world Enroll, [])), [])
    = Ret Idle (w2, [])
    /\ currentState (self w2) = Idle
    /\ desiredState (self w2) = Invalid
    /\ kernel_eventfd w2 = Some 0.
Proof.
  exact (consumeState_once (request_world Enroll, [])
           (world_of (consumeState (request_world Enroll, [])), [])
           Enroll eq_refl).
Defined.

Lemma channel_ok_requested (n : Z) (S : AsyncState) (w : World) :
  0 <= n ->
  channel_ok (n + 1) w ->
  channel_ok n (add_event Unlock (requested S (add_event Lock w))).
Proof.
  intros Hn Hok.
  assert (Hw : writable (add_event Lock w) = true).
  { unfold writable. cbn [add_event self kernel_eventfd].
    destruct Hok as (Hfd & c & Hk & Hc & Hmax).
    apply Z.ltb_ge in Hfd. rewrite Hfd, Hk. apply Z.leb_le.
    unfold EVENTFD_MAX in *. lia. }
  destruct Hok as (Hfd & c & Hk & Hc & Hmax).
  split; [exact Hfd|]. exists (c + 1).
  unfold requested, signalled. rewrite Hw.
  cbn [add_event self kernel_eventfd]. rewrite Hk. cbn [option_map].
  split; [reflexivity|]. lia.
Qed.

(** X5.  Last write wins, and the two signals coalesce: when two requests
    are made before the worker consumes, the worker's next [consumeState]
    returns the second one, and the one after that finds nothing and
    returns [Idle]; the first request is never seen. *)
Theorem last_request_wins_once (S1 S2 : AsyncState) (w : World)
    (sched : list Resume) :
  channel_ok 2 w ->
  S2 <> Invalid ->
  exists w',
    (moveToState S1 ;; moveToState S2 ;;
     a <- consumeState ;; b <- consumeState ;; ret (a, b)) (w, sched)
    = Ret (S2, Idle) (w', sched)
    /\ currentState (self w') = Idle
    /\ desiredState (self w') = Invalid
    /\ signal_pending w' = false.
Proof.
  intros Hok HS2.
  pose proof (channel_ok_requested 1 S1 w ltac:(lia) Hok) as Hok1.
  destruct (request_consume_run S2 _ sched Hok1) as (w2 & Hm & Hs & Hp & Hc).
  apply AsyncState_eqb_neq in HS2. rewrite HS2 in Hc.
  unfold bind at 1. rewrite moveToState_run.
  unfold bind at 1. rewrite Hm.
  unfold bind at 1. rewrite Hc.
  unfold bind at 1.
  destruct (consumeState_ret_drained _ _ _ _ Hc) as [Hp3 _].
  cbn [fst] in Hp3.
  rewrite (consumeState_not_pending _ sched Hp3).
  eexists. split; [reflexivity|]. repeat split.
  unfold signal_pending in *. cbn [self kernel_eventfd event_fd] in *.
  exact Hp3.
Qed.

Lemma last_request_wins_once_witness :
  exists w',
    (moveToState Authenticate ;; moveToState Pause ;;
     a <- consumeState ;; b <- consumeState ;; ret (a, b)) (idle_world, [])
    = Ret (Pause, Idle) (w', [])
    /\ currentState (self w') = Idle
    /\ desiredState (self w') = Invalid
    /\ signal_pending w' = false.
Proof.
  apply (last_request_wins_once Authenticate Pause idle_world []).
  - split; [simpl; lia|]. exists 0. split; [reflexivity|].
    unfold EVENTFD_MAX. lia.
  - discriminate.
Defined.

(** ** The handshake as its callers see it *)

(** What a wait reports is what its last check found. *)
Lemma wait_until_ret_entered (S : AsyncState) (t : Z) (sched : list Resume) :
  forall (w : World) (b : bool) (st' : St),
    wait_until t (entered S) w sched = Ret b st' ->
    b = entered S (fst st').
Proof.
  induction sched as [|r sched IH]; intros w b st'; cbn [wait_until];
    destruct (entered S w) eqn:He.
  - intros H. injection H as <- <-. cbn [fst]. now rewrite He.
  - discriminate.
  - intros H. injection H as <- <-. cbn [fst]. now rewrite He.
  - destruct (clock (resumed r w) <? t).
    + apply IH.
    + intros H. injection H as <- <-. reflexivity.
Qed.

(** A wait that reports failure or is still suspended has used up no more
    than it was given: in particular a returned [false] is a timeout. *)
Lemma waitForState_locked_ret (S : AsyncState) (lock : unique_lock)
    (w : World) (sched : list Resume) (b : bool) (st' : St) :
  holds_mEventfdMutex lock w = true ->
  waitForState_locked S lock (w, sched) = Ret b st' ->
  (b = true /\ writable w = true /\ currentState (self (fst st')) = S)
  \/ (b = false /\ writable w = false /\ snd st' = sched
      /\ desiredState (self (fst st')) = S
      /\ currentState (self (fst st')) = currentState (self w)).
Proof.
  intros Hl. rewrite waitForState_locked_run by exact Hl.
  destruct (writable w).
  - destruct (wait_until _ _ _ _) as [[|] [w' sched']| |] eqn:Hwait;
      try discriminate.
    intros H. injection H as <- <-. left.
    apply wait_until_ret_entered in Hwait. cbn [fst] in Hwait.
    symmetry in Hwait. apply AsyncState_eqb_eq in Hwait.
    repeat split. exact Hwait.
  - intros H. injection H as <- <-. right. repeat split.
Qed.

(** X6.  What the result of [waitForState(S, lock)] tells its caller, for a
    lock handle that holds the mutex.  When it returns [true] the signal
    was written and [currentState] is [S] at the return, with the mutex
    held.  When it returns [false] the signal write had failed: nothing was
    waited for, [desiredState] is [S] and [currentState] is untouched.  A
    timeout is never reported as [false]. *)
Theorem waitForState_locked_result (S : AsyncState) (lock : unique_lock)
    (w : World) (sched : list Resume) (b : bool) (st' : St) :
  mutex lock = mEventfdMutex (self w) ->
  owns_lock lock = true ->
  waitForState_locked S lock (w, sched) = Ret b st' ->
  (b = true -> writable w = true /\ currentState (self (fst st')) = S)
  /\ (b = false ->
      writable w = false /\ snd st' = sched
      /\ desiredState (self (fst st')) = S
      /\ currentState (self (fst st')) = currentState (self w)).
Proof.
  intros Hm Ho H.
  assert (Hl : holds_mEventfdMutex lock w = true).
  { unfold holds_mEventfdMutex. rewrite Hm, Ho, Z.eqb_refl. reflexivity. }
  destruct (waitForState_locked_ret S lock w sched b st' Hl H)
    as [(-> & Hw & Hc) | (-> & Hw & Hs & Hd & Hc)].
  - split; [intros _; now split | discriminate].
  - split; [discriminate | intros _; repeat split; assumption].
Qed.

Lemma waitForState_locked_result_witness :
  writable idle_world = true
  /\ currentState
       (self (fst (world_of (waitForState_locked Stop (mkLock 4096 true)
                               (idle_world, [worker_consumes])),
                   @nil Resume)))
     = Stop.
Proof.
  refine (proj1 (waitForState_locked_result Stop (mkLock 4096 true) idle_world
                   [worker_consumes] true
                   (world_of (waitForState_locked Stop (mkLock 4096 true)
                                (idle_world, [worker_consumes])), [])
                   eq_refl eq_refl _) eq_refl).
  vm_compute. reflexivity.
Defined.

(** X7.  [Pause()] returns [true] only with the worker in [Pause], and
    [false] only when the signal could not be written, in which case it
    did not wait and the request for [Pause] stays recorded. *)
Theorem Thread_Pause_result (w : World) (sched : list Resume) (b : bool)
    (st' : St) :
  Thread_Pause (w, sched) = Ret b st' ->
  (b = true -> writable w = true /\ currentState (self (fst st')) = Pause)
  /\ (b = false ->
      writable w = false /\ snd st' = sched
      /\ desiredState (self (fst st')) = Pause
      /\ currentState (self (fst st')) = currentState (self w)).
Proof.
  unfold Thread_Pause, ALOGV, emit. unfold bind at 1. unfold modify.
  cbn [fst snd]. rewrite waitForState_run. rewrite writable_add_event.
  destruct (writable w).
  - destruct (wait_until _ _ _ _) as [[|] [w' sched']| |] eqn:Hwait;
      try discriminate.
    intros H. injection H as <- <-.
    apply wait_until_ret_entered in Hwait. cbn [fst] in Hwait.
    symmetry in Hwait. apply AsyncState_eqb_eq in Hwait.
    split; [intros _; split; [reflexivity|exact Hwait] | discriminate].
  - intros H. injection H as <- <-.
    split; [discriminate | intros _; repeat split].
Qed.

Lemma Thread_Pause_result_witness :
  writable idle_world = true
  /\ currentState
       (self (fst (world_of (Thread_Pause (idle_world, [worker_consumes])),
                   @nil Resume)))
     = Pause.
Proof.
  refine (proj1 (Thread_Pause_result idle_world [worker_consumes] true
                   (world_of (Thread_Pause (idle_world, [worker_consumes])),
                    []) _) eq_refl).
  vm_compute. reflexivity.
Defined.



(** ** Start *)

(** X9.  [Start()] on a coordinator whose thread is not joinable makes it
    joinable and touches neither the state pair nor the eventfd; calling
    [Start()] twice in a row ends the process whatever the coordinator's
    state was, because the second assignment meets a joinable thread. *)
Theorem Thread_Start_once (w : World) (sched : list Resume) :
  (thread (self w) = NotAThread ->
   exists w',
     Thread_Start (w, sched) = Ret tt (w', sched)
     /\ joinable (thread (self w')) = true
     /\ currentState (self w') = currentState (self w)
     /\ desiredState (self w') = desiredState (self w)
     /\ kernel_eventfd w' = kernel_eventfd w)
  /\ (exists st', (Thread_Start ;; Thread_Start) (w, sched)
                  = Fatal "std::terminate" [] st').
Proof.
  unfold Thread_Start. unfold emit. unfold bind, gets, modify. cbn [fst snd].
  split.
  - intros Ht. rewrite Ht. cbn [joinable].
    eexists. split; [reflexivity|]. repeat split.
  - destruct (thread (self w)); cbn [joinable]; eexists; reflexivity.
Qed.

Lemma Thread_Start_once_witness :
  exists w',
    Thread_Start (constructed_world, []) = Ret tt (w', [])
    /\ joinable (thread (self w')) = true
    /\ currentState (self w') = currentState (self constructed_world)
    /\ desiredState (self w') = desiredState (self constructed_world)
    /\ kernel_eventfd w' = kernel_eventfd constructed_world.
Proof.
  exact (proj1 (Thread_Start_once constructed_world []) eq_refl).
Defined.

(** ** The worker thread as a whole *)

Section WorkerThread.

Variable handler : WorkHandler.




(** X11.  A paused worker stays paused: when the request consumed is
    [Pause] and no other thread acts, the loop neither returns nor goes on
    to consume; it is suspended in the poll with [currentState] equal to
    [Pause], nothing requested and no signal pending. *)
Theorem RunThread_paused_blocks (fuel : nat) (w : World) :
  signal_pending w = true ->
  desiredState (self w) = Pause ->
  exists w',
    RunThread_loop handler (S fuel) (w, []) = Pending (w', [])
    /\ currentState (self w') = Pause
    /\ desiredState (self w') = Invalid
    /\ signal_pending w' = false.
Proof.
  intros Hp Hd.
  assert (Hc : consumeState (w, [])
               = Ret Pause
                     (mkWorld (with_desiredState Invalid
                                 (with_currentState Pause (self w)))
                              (Some 0) (clock w)
                              (trace w ++ consumeState_events w), [])).
  { rewrite consumeState_run. unfold consumed, drained.
    rewrite Hp, Hd. reflexivity. }
  rewrite (RunThread_loop_step handler fuel _ _ _ Hc).
  unfold RunThread_switch, isEventAvailable, poll. unfold bind, gets.
  cbn [fst snd switched add_event self event_fd kernel_eventfd
       with_desiredState with_currentState].
  destruct (event_fd (self w) <? 0) eqn:Hfd; cbn [Z.eqb negb];
    (eexists; split; [reflexivity|]; repeat split;
     unfold signal_pending; cbn [self event_fd kernel_eventfd fst add_event];
     cbn [with_desiredState with_currentState event_fd Z.eqb negb];
     rewrite ?Hfd; reflexivity).
Qed.

End WorkerThread.


Lemma RunThread_paused_blocks_witness :
  exists w',
    RunThread_loop quick_handler 2 (request_world Pause, []) = Pending (w', [])
    /\ currentState (self w') = Pause
    /\ desiredState (self w') = Invalid
    /\ signal_pending w' = false.
Proof.
  exact (RunThread_paused_blocks quick_handler 1 (request_world Pause)
           eq_refl eq_refl).
Defined.

(** ** isEventAvailable and the idle operation *)

(** [Thread::isEventAvailable] in closed form. *)
Lemma isEventAvailable_run (timeout : Z) (w : World) (sched : list Resume) :
  isEventAvailable timeout (w, sched)
  = if signal_pending w then
      Ret true (add_event (Log VERBOSE "%s: available=%d"
                               [Str "isEventAvailable"; Int 1])
                          (add_event (Poll 1) w), sched)
    else if timeout =? 0 then
      Ret false (add_event (Log VERBOSE "%s: available=%d"
                                [Str "isEventAvailable"; Int 0])
                           (add_event (Poll 0) w), sched)
    else
      match sched with
      | [] => Pending (w, [])
      | r :: sched' =>
          let w' := add_event (Poll (wake r)) (others r w) in
          if wake r <? 0 then
            Ret false (add_event (Log ERROR "%s: Failed polling eventfd: %d"
                                      [Str "isEventAvailable"; Int (wake r)])
                                 w', sched')
          else
            Ret (0 <? wake r)
                (add_event (Log VERBOSE "%s: available=%d"
                                [Str "isEventAvailable";
                                 Int (if 0 <? wake r then 1 else 0)])
                           w', sched')
      end.
Proof.
  unfold isEventAvailable, poll, signal_pending.
  unfold ALOGE, ALOGV, emit. unfold bind, gets, ret, modify. cbn [fst snd].
  destruct (event_fd (self w) <? 0);
    [|destruct (kernel_eventfd w) as [c|]; [destruct (negb (c =? 0))|]];
    try reflexivity;
    (destruct (timeout =? 0); [reflexivity|]);
    (destruct sched as [|r sched']; [reflexivity|]);
    destruct (wake r <? 0); reflexivity.
Qed.

(** X12.  Polling does not consume: with a signal pending,
    [isEventAvailable] returns [true] at once for every timeout, and the
    object and the eventfd are as before, so that a [consumeState] that
    follows still takes the request. *)
Theorem isEventAvailable_peeks (timeout : Z) (w : World)
    (sched : list Resume) :
  signal_pending w = true ->
  exists w1,
    isEventAvailable timeout (w, sched) = Ret true (w1, sched)
    /\ self w1 = self w
    /\ kernel_eventfd w1 = kernel_eventfd w
    /\ (desiredState (self w) <> Invalid ->
        exists w2,
          consumeState (w1, sched) = Ret (desiredState (self w)) (w2, sched)).
Proof.
  intros Hp. rewrite isEventAvailable_run, Hp.
  eexists. split; [reflexivity|]. split; [reflexivity|].
  split; [reflexivity|].
  intros Hd. apply AsyncState_eqb_neq in Hd.
  rewrite consumeState_run. unfold consumed.
  assert (Hp' : forall e1 e2,
             signal_pending (add_event e1 (add_event e2 w)) = true)
    by (intros; exact Hp).
  rewrite Hp'. cbn [add_event self]. rewrite Hd. cbn [andb].
  eexists. reflexivity.
Qed.

Lemma isEventAvailable_peeks_witness :
  exists w1,
    isEventAvailable (-1) (request_world Enroll, []) = Ret true (w1, [])
    /\ self w1 = self (request_world Enroll)
    /\ kernel_eventfd w1 = kernel_eventfd (request_world Enroll)
    /\ (desiredState (self (request_world Enroll)) <> Invalid ->
        exists w2,
          consumeState (w1, [])
          = Ret (desiredState (self (request_world Enroll))) (w2, [])).
Proof.
  exact (isEventAvailable_peeks (-1) (request_world Enroll) [] eq_refl).
Defined.






(** ** The handshake against the worker loop *)

(** The world a returning [consumeState] leaves when a signal was pending. *)
Lemma consumeState_pending (w : World) (sched : list Resume) :
  signal_pending w = true ->
  desiredState (self w) <> Invalid ->
  consumeState (w, sched)
  = Ret (desiredState (self w))
        (mkWorld (with_desiredState Invalid
                    (with_currentState (desiredState (self w)) (self w)))
                 (Some 0) (clock w)
                 (trace w ++ consumeState_events w), sched).
Proof.
  intros Hp Hd. apply AsyncState_eqb_neq in Hd.
  rewrite consumeState_run. unfold consumed, drained. now rewrite Hp, Hd.
Qed.

(** The loop, entered with a signalled request for [Pause] and left alone,
    is suspended in the poll. *)
Lemma RunThread_loop_pause_pending (handler : WorkHandler) (fuel : nat)
    (w : World) :
  signal_pending w = true ->
  desiredState (self w) = Pause ->
  RunThread_loop handler (S fuel) (w, [])
  = Pending (switched Pause
               (mkWorld (with_desiredState Invalid
                           (with_currentState Pause (self w)))
                        (Some 0) (clock w)
                        (trace w ++ consumeState_events w), [])).
Proof.
  intros Hp Hd.
  assert (Hc := consumeState_pending w [] Hp). rewrite Hd in Hc.
  rewrite (RunThread_loop_step handler fuel _ _ _ (Hc ltac:(discriminate))).
  unfold RunThread_switch. unfold bind at 1. unfold switched. cbn [fst snd].
  rewrite isEventAvailable_run.
  match goal with
  | |- context [signal_pending ?x] =>
      assert (Hp' : signal_pending x = false)
  end.
  { unfold signal_pending. cbn [add_event self kernel_eventfd].
    cbn [with_desiredState with_currentState event_fd Z.eqb negb].
    destruct (_ <? 0); reflexivity. }
  rewrite Hp'. reflexivity.
Qed.

(** The loop, entered with a signalled request for [Stop], returns. *)
Lemma RunThread_loop_stop_returns (handler : WorkHandler) (fuel : nat)
    (w : World) (sched : list Resume) :
  signal_pending w = true ->
  desiredState (self w) = Stop ->
  RunThread_loop handler (S fuel) (w, sched)
  = Ret tt
        (add_event (Log INFO "Stopping Thread" [])
           (fst (switched Stop
                   (mkWorld (with_desiredState Invalid
                               (with_currentState Stop (self w)))
                            (Some 0) (clock w)
                            (trace w ++ consumeState_events w), sched))),
         sched).
Proof.
  intros Hp Hd.
  assert (Hc := consumeState_pending w sched Hp). rewrite Hd in Hc.
  rewrite (RunThread_loop_step handler fuel _ _ _ (Hc ltac:(discriminate))).
  reflexivity.
Qed.

(** After a request on a channel in order, the worker finds a signal and
    the requested state, also once the requester has released the mutex. *)
Lemma requested_pending (S : AsyncState) (w : World) (e : Event) :
  channel_ok 1 w ->
  signal_pending (add_event e (requested S w)) = true
  /\ desiredState (self (add_event e (requested S w))) = S.
Proof.
  intros Hok. split; [|reflexivity].
  unfold add_event, requested. cbn [self kernel_eventfd clock trace].
  apply (signal_pending_signalled 1 w); [lia|exact Hok|reflexivity].
Qed.

(** X16.  [Pause()] against the worker loop: on a channel in order, with
    the worker not yet paused, if the worker thread gets to run its loop
    before the caller checks again (for whatever handler and however long
    that takes), [Pause()] returns [true]; the worker is then suspended
    in state [Pause], the request is consumed and no signal is pending. *)
Theorem Thread_Pause_succeeds (handler : WorkHandler) (fuel : nat) (d : Z)
    (w : World) (post : list Resume) :
  channel_ok 1 w ->
  currentState (self w) <> Pause ->
  exists w',
    Thread_Pause (w, worker_loop_runs handler (S fuel) d :: post)
    = Ret true (w', post)
    /\ currentState (self w') = Pause
    /\ desiredState (self w') = Invalid
    /\ signal_pending w' = false
    /\ thread (self w') = thread (self w).
Proof.
  intros Hok Hc.
  unfold Thread_Pause, ALOGV, emit. unfold bind at 1. unfold modify.
  cbn [fst snd]. rewrite waitForState_run, writable_add_event.
  rewrite (channel_ok_writable 1 w) by (lia || exact Hok).
  set (wv := add_event (Log VERBOSE "Waiting for thread to pause" []) w).
  set (w0 := requested Pause (add_event Lock wv)).
  set (r := worker_loop_runs handler (S fuel) d).
  assert (Hok0 : channel_ok 1 (add_event Lock wv)) by exact Hok.
  destruct (requested_pending Pause (add_event Lock wv) Unlock Hok0)
    as [Hp Hd]. fold w0 in Hp, Hd.
  assert (Hres : resumed r w0
                 = add_event Lock
                     (tick d
                        (fst (switched Pause
                                (mkWorld (with_desiredState Invalid
                                            (with_currentState Pause
                                               (self (add_event Unlock w0))))
                                         (Some 0)
                                         (clock (add_event Unlock w0))
                                         (trace (add_event Unlock w0)
                                          ++ consumeState_events
                                               (add_event Unlock w0)),
                                 @nil Resume))))).
  { unfold resumed, r, worker_loop_runs. cbn [others].
    now rewrite (RunThread_loop_pause_pending handler fuel _ Hp Hd). }
  rewrite (wait_until_entered Pause _ [] w0 r post).
  - cbn [after fold_left]. rewrite Hres.
    eexists. split; [reflexivity|].
    split; [reflexivity|]. split; [reflexivity|]. split; [|reflexivity].
    unfold signal_pending.
    cbn [add_event tick switched fst self kernel_eventfd].
    cbn [with_desiredState with_currentState event_fd Z.eqb negb].
    destruct (_ <? 0); reflexivity.
  - split; [exact Hc | exact I].
  - cbn [after fold_left]. rewrite Hres. reflexivity.
Qed.

Lemma Thread_Pause_succeeds_witness :
  exists w',
    Thread_Pause (idle_world, [worker_loop_runs quick_handler 3 1000000])
    = Ret true (w', [])
    /\ currentState (self w') = Pause
    /\ desiredState (self w') = Invalid
    /\ signal_pending w' = false
    /\ thread (self w') = thread (self idle_world).
Proof.
  apply (Thread_Pause_succeeds quick_handler 2 1000000 idle_world []).
  - split; [simpl; lia|]. exists 0. split; [reflexivity|].
    unfold EVENTFD_MAX. lia.
  - discriminate.
Defined.

(** ** Stop against the worker thread, and the life cycle *)

Lemma thread_join_finished (w : World) (sched : list Resume) :
  thread (self w) = Finished ->
  thread_join w sched
  = Ret tt (add_event Join (set_self (with_thread NotAThread (self w)) w),
            sched).
Proof.
  intros Ht. destruct sched; cbn [thread_join]; now rewrite Ht.
Qed.

(** The worker thread, started with a signalled request for [Stop], runs
    to completion. *)
Lemma ThreadStart_stop_run (handler : WorkHandler) (fuel : nat) (w : World)
    (sched : list Resume) :
  signal_pending w = true ->
  desiredState (self w) = Stop ->
  exists w',
    ThreadStart handler (S fuel) (w, sched) = Ret tt (w', sched)
    /\ self w'
       = with_thread Finished
           (with_desiredState Invalid (with_currentState Stop (self w)))
    /\ kernel_eventfd w' = Some 0
    /\ clock w' = clock w.
Proof.
  intros Hp Hd.
  unfold ThreadStart, RunThread, ALOGD, emit. unfold bind at 1.
  unfold bind at 1. unfold modify at 1. cbn [fst snd].
  rewrite (RunThread_loop_stop_returns handler fuel
             (add_event (Log DEBUG "Async thread up" []) w) sched Hp Hd).
  unfold modify. eexists. split; [reflexivity|]. repeat split.
Qed.

(** [Stop()] against a worker thread that gets to run. *)
Lemma Thread_Stop_with_running_worker (handler : WorkHandler) (fuel : nat)
    (d : Z) (w : World) (post : list Resume) :
  channel_ok 1 w ->
  thread (self w) = Running ->
  currentState (self w) <> Stop ->
  exists w',
    Thread_Stop (w, worker_thread_runs handler (S fuel) d :: post)
    = Ret tt (w', post)
    /\ self w'
       = with_thread NotAThread
           (with_desiredState Invalid (with_currentState Stop (self w)))
    /\ kernel_eventfd w' = Some 0
    /\ clock w' = clock w + d.
Proof.
  intros Hok Ht Hc.
  rewrite Thread_Stop_run, Ht. cbn [joinable].
  rewrite waitForState_locked_run by apply holds_Stop_lock.
  assert (Hok0 : channel_ok 1 (Stop_requesting w)) by exact Hok.
  rewrite (channel_ok_writable 1 _ ltac:(lia) Hok0).
  set (w0 := requested Stop (Stop_requesting w)).
  set (r := worker_thread_runs handler (S fuel) d).
  destruct (requested_pending Stop (Stop_requesting w) Unlock Hok0)
    as [Hp Hd]. fold w0 in Hp, Hd.
  destruct (ThreadStart_stop_run handler fuel (add_event Unlock w0) [] Hp Hd)
    as (ww & Hrun & Hself & Hk & Hclk).
  assert (Hres : resumed r w0 = add_event Lock (tick d ww)).
  { unfold resumed, r, worker_thread_runs. cbn [others].
    now rewrite Hrun. }
  rewrite (wait_until_entered Stop _ [] w0 r post).
  - cbn [after fold_left]. rewrite Hres.
    unfold bind, join, emit, modify. cbn [fst snd].
    rewrite thread_join_finished
      by (cbn [add_event tick self]; now rewrite Hself).
    eexists. split; [reflexivity|].
    repeat split;
      cbn [fst snd add_event set_self tick self kernel_eventfd clock];
      rewrite ?Hself, ?Hk, ?Hclk; reflexivity.
  - split; [exact Hc | exact I].
  - cbn [after fold_left]. rewrite Hres.
    cbn [add_event tick self]. now rewrite Hself.
Qed.

(** X17.  [Stop()] against the worker thread: on a channel in order, with
    the thread running, if the worker gets to run before the caller checks
    again (for whatever handler, from the start of its function), [Stop()]
    returns without aborting; the thread has been joined, [currentState]
    is [Stop], nothing is requested, and the signal has been consumed. *)
Theorem Thread_Stop_joins_worker (handler : WorkHandler) (fuel : nat)
    (d : Z) (w : World) (post : list Resume) :
  channel_ok 1 w ->
  thread (self w) = Running ->
  currentState (self w) <> Stop ->
  exists w',
    Thread_Stop (w, worker_thread_runs handler (S fuel) d :: post)
    = Ret tt (w', post)
    /\ thread (self w') = NotAThread
    /\ currentState (self w') = Stop
    /\ desiredState (self w') = Invalid
    /\ kernel_eventfd w' = Some 0
    /\ event_fd (self w') = event_fd (self w).
Proof.
  intros Hok Ht Hc.
  destruct (Thread_Stop_with_running_worker handler fuel d w post Hok Ht Hc)
    as (w' & Hrun & Hself & Hk & _).
  exists w'. rewrite Hself. repeat split; assumption.
Qed.

Lemma Thread_Stop_joins_worker_witness :
  exists w',
    Thread_Stop (idle_world, [worker_thread_runs quick_handler 3 1000000])
    = Ret tt (w', [])
    /\ thread (self w') = NotAThread
    /\ currentState (self w') = Stop
    /\ desiredState (self w') = Invalid
    /\ kernel_eventfd w' = Some 0
    /\ event_fd (self w') = event_fd (self idle_world).
Proof.
  apply (Thread_Stop_joins_worker quick_handler 2 1000000 idle_world []).
  - split; [simpl; lia|]. exists 0. split; [reflexivity|].
    unfold EVENTFD_MAX. lia.
  - reflexivity.
  - discriminate.
Defined.

(** A [Stop] that returns leaves the thread object not joinable. *)
Lemma Thread_Stop_ret_not_joinable (w : World) (sched : list Resume)
    (st1 : St) :
  Thread_Stop (w, sched) = Ret tt st1 ->
  thread (self (fst st1)) = NotAThread.
Proof.
  intros H. destruct (joinable (thread (self w))) eqn:Hj.
  - destruct (Thread_Stop_ret_joined w sched st1 Hj H)
      as (s1 & wj & _ & ->).
    reflexivity.
  - rewrite Thread_Stop_run, Hj in H. injection H as <-. cbn [fst add_event self].
    destruct (thread (self w)); [reflexivity|discriminate..].
Qed.

(** X18.  After a [Stop()] that has returned, [Start()] is accepted: it
    does not end the process, and makes the thread joinable again.  The
    state pair is not reset by either: a worker restarted after a
    completed handshake finds [currentState] still where [Stop] left it. *)
Theorem Thread_Start_after_Stop (w : World) (sched : list Resume)
    (st1 : St) :
  Thread_Stop (w, sched) = Ret tt st1 ->
  exists w2,
    Thread_Start st1 = Ret tt (w2, snd st1)
    /\ thread (self w2) = Running
    /\ currentState (self w2) = currentState (self (fst st1))
    /\ desiredState (self w2) = desiredState (self (fst st1)).
Proof.
  intros H. apply Thread_Stop_ret_not_joinable in H.
  unfold Thread_Start. unfold emit. unfold bind, gets, modify.
  rewrite H. cbn [joinable fst snd].
  eexists. split; [reflexivity|]. repeat split.
Qed.

Lemma Thread_Start_after_Stop_witness :
  exists w2,
    Thread_Start stopped_state = Ret tt (w2, snd stopped_state)
    /\ thread (self w2) = Running
    /\ currentState (self w2) = currentState (self (fst stopped_state))
    /\ desiredState (self w2) = desiredState (self (fst stopped_state)).
Proof.
  exact (Thread_Start_after_Stop idle_world [worker_runs] stopped_state
           Thread_Stop_with_worker).
Defined.

(** X19.  Destroying a coordinator whose thread is not running (never
    started, or stopped) cannot abort and does not wait: the mutex is
    taken and released, the descriptor is closed, and the object is
    otherwise untouched. *)
Theorem Thread_dtor_not_running (w : World) (sched : list Resume) :
  thread (self w) = NotAThread ->
  0 <= event_fd (self w) ->
  exists w',
    Thread_dtor (w, sched) = Ret tt (w', sched)
    /\ self w' = self w
    /\ kernel_eventfd w' = None
    /\ trace w' = trace w ++ [Lock; Unlock; Close].
Proof.
  intros Ht Hfd. unfold Thread_dtor, close. unfold bind at 1.
  rewrite Thread_Stop_run, Ht. cbn [joinable].
  unfold bind, gets, modify. cbn [fst snd add_event self].
  apply Z.ltb_ge in Hfd. rewrite Hfd.
  eexists. split; [reflexivity|]. repeat split.
  cbn [add_event set_kernel_eventfd trace]. now rewrite <- !app_assoc.
Qed.

Lemma Thread_dtor_not_running_witness :
  exists w',
    Thread_dtor (constructed_world, []) = Ret tt (w', [])
    /\ self w' = self constructed_world
    /\ kernel_eventfd w' = None
    /\ trace w' = trace constructed_world ++ [Lock; Unlock; Close].
Proof.
  apply (Thread_dtor_not_running constructed_world []).
  - reflexivity.
  - simpl. lia.
Defined.

(** X20.  The normal life of a coordinator: constructed with a handler and
    a descriptor, started, and destroyed while the worker thread gets to
    run, it comes to an end without any abort, from whatever memory the
    object was built in: the worker consumed [Stop], the thread was
    joined, and the descriptor is closed. *)
Theorem coordinator_life_cycle (handler : WorkHandler) (fuel : nat) (d : Z)
    (h new_fd : Z) (w : World) (post : list Resume) :
  h <> 0 ->
  0 <= new_fd ->
  exists w',
    (Thread_ctor h new_fd ;; Thread_Start ;; Thread_dtor)
      (w, worker_thread_runs handler (S fuel) d :: post)
    = Ret tt (w', post)
    /\ thread (self w') = NotAThread
    /\ currentState (self w') = Stop
    /\ desiredState (self w') = Invalid
    /\ mHandler (self w') = h
    /\ event_fd (self w') = new_fd
    /\ kernel_eventfd w' = None.
Proof.
  intros Hh Hfd.
  set (sched := worker_thread_runs handler (S fuel) d :: post).
  set (w1 := add_event Spawn
               (mkWorld (mkThread h new_fd Running (mEventfdMutex (self w))
                                  Idle Invalid)
                        (Some 0) (clock w) (trace w))).
  assert (Hinit : (Thread_ctor h new_fd ;; Thread_Start) (w, sched)
                  = Ret tt (w1, sched)).
  { unfold Thread_ctor, Thread_Start, eventfd, LOG_ALWAYS_FATAL_IF.
    unfold emit. unfold bind, gets, modify, ret. cbn [fst snd].
    cbn [set_self self Thread_members mHandler].
    apply Z.eqb_neq in Hh. rewrite Hh.
    apply Z.ltb_ge in Hfd. rewrite Hfd.
    cbn [set_self set_kernel_eventfd self with_event_fd event_fd thread
         joinable Thread_members].
    rewrite Hfd. reflexivity. }
  assert (Hok : channel_ok 1 w1).
  { split; [exact Hfd|]. exists 0. split; [reflexivity|].
    unfold EVENTFD_MAX. lia. }
  destruct (Thread_Stop_with_running_worker handler fuel d w1 post Hok
              eq_refl ltac:(discriminate))
    as (w2 & Hstop & Hself & Hk & _).
  fold sched in Hstop.
  assert (Hrun : (Thread_ctor h new_fd ;; Thread_Start ;; Thread_dtor)
                   (w, sched)
                 = Thread_dtor (w1, sched)).
  { change ((Thread_ctor h new_fd ;; Thread_Start ;; Thread_dtor) (w, sched))
      with (match Thread_ctor h new_fd (w, sched) with
            | Ret _ s' => (Thread_Start ;; Thread_dtor) s'
            | Fatal fmt args s' => Fatal fmt args s'
            | Pending s' => Pending s'
            end).
    revert Hinit. unfold bind.
    destruct (Thread_ctor h new_fd (w, sched)) as [[] s'| |];
      try discriminate.
    intros ->. reflexivity. }
  rewrite Hrun. unfold Thread_dtor, close. unfold bind at 1. rewrite Hstop.
  unfold bind, gets, modify. cbn [fst snd].
  rewrite Hself. cbn [with_thread with_desiredState with_currentState event_fd].
  unfold w1 at 1. cbn [add_event self event_fd].
  apply Z.ltb_ge in Hfd. rewrite Hfd.
  eexists. split; [reflexivity|].
  cbn [add_event set_kernel_eventfd self kernel_eventfd]. rewrite Hself.
  repeat split.
Qed.

Lemma coordinator_life_cycle_witness :
  exists w',
    (Thread_ctor 77 5 ;; Thread_Start ;; Thread_dtor)
      (raw_world, [worker_thread_runs quick_handler 3 1000000])
    = Ret tt (w', [])
    /\ thread (self w') = NotAThread
    /\ currentState (self w') = Stop
    /\ desiredState (self w') = Invalid
    /\ mHandler (self w') = 77
    /\ event_fd (self w') = 5
    /\ kernel_eventfd w' = None.
Proof.
  apply (coordinator_life_cycle quick_handler 2 1000000 77 5 raw_world []);
    lia.
Defined.

(** ** Leaving a state *)

(** X21.  A [Stop] requested while the worker is busy ends the thread as
    soon as the current operation returns: when the arm of the switch for a
    state other than [Stop] returns with a signalled request for [Stop]
    pending, the reset to [Idle] does not lose it, and the very next
    iteration returns from the loop with [currentState] equal to [Stop]. *)
Theorem RunThread_stop_after_operation (handler : WorkHandler) (fuel : nat)
    (st st1 st2 : St) (s : AsyncState) (b : bool) :
  s <> Stop ->
  consumeState st = Ret s st1 ->
  RunThread_switch handler s (switched s st1) = Ret b st2 ->
  signal_pending (fst st2) = true ->
  desiredState (self (fst st2)) = Stop ->
  exists w',
    RunThread_loop handler (S (S fuel)) st = Ret tt (w', snd st2)
    /\ currentState (self w') = Stop
    /\ desiredState (self w') = Invalid
    /\ kernel_eventfd w' = Some 0.
Proof.
  intros Hs Hc Hsw Hp Hd.
  pose proof (RunThread_switch_continues handler s _ _ _ Hs Hsw) as ->.
  rewrite (RunThread_loop_step handler (S fuel) st st1 s Hc), Hsw.
  unfold back_to_idle.
  rewrite (RunThread_loop_stop_returns handler fuel _ (snd st2));
    [|exact Hp|exact Hd].
  eexists. split; [reflexivity|]. repeat split.
Qed.

Lemma RunThread_stop_after_operation_witness :
  exists w',
    RunThread_loop
      (mkWorkHandler WorkHandler_IdleAsync (moveToState Stop ;; ret tt)
                     (ret tt))
      2 (request_world Authenticate, [])
    = Ret tt (w', [])
    /\ currentState (self w') = Stop
    /\ desiredState (self w') = Invalid
    /\ kernel_eventfd w' = Some 0.
Proof.
  refine (RunThread_stop_after_operation
            (mkWorkHandler WorkHandler_IdleAsync (moveToState Stop ;; ret tt)
                           (ret tt))
            0 (request_world Authenticate, [])
            (world_of (consumeState (request_world Authenticate, [])), [])
            (world_of
               (moveToState Stop
                  (switched Authenticate
                     (world_of (consumeState (request_world Authenticate, [])),
                      []))), [])
            Authenticate false _ _ _ _ _).
  - discriminate.
  - vm_compute. reflexivity.
  - vm_compute. reflexivity.
  - vm_compute. reflexivity.
  - vm_compute. reflexivity.
Defined.




